(** * Conversation session service: sessions, events and paginated reads

    A shallow embedding of [ConversationsService]
    (src/conversations/conversations.service.ts), of the two schemas it
    persists through ([Session], [Event]) and of the storage calls it
    issues, followed by the properties of its four operations.

    The document store is explicit state: the two collections are lists
    of documents in insertion order, and the unique indexes declared by
    the schemas are checked by the write primitives.  A storage call may
    also throw for reasons of its own (a lost connection, a write that
    loses a race); this is an input of the model, the fault plan of the
    [World].  [new Date()] is an argument of the operations that read the
    clock.  Requests are served one after the other; where a property
    depends on what other requests do between two storage calls of one
    request, those requests are run in between.  Logging has no effect
    on results and is left out. *)

From Stdlib Require Import List ZArith String Bool Arith Lia.
From Stdlib Require Import Sorting.Sorted Sorting.Permutation.
Import ListNotations.

Local Open Scope string_scope.
Local Open Scope list_scope.
Local Open Scope nat_scope.

(** ** Data model *)

(** A [Date] is the instant it denotes, in milliseconds since the epoch. *)
Definition Date : Type := Z.
Bind Scope Z_scope with Date.

(** A schema-free value, as stored under [SchemaTypes.Mixed]. *)
#[local] Unset Elimination Schemes.
Inductive Json : Type :=
| JNull
| JBool (b : bool)
| JNumber (n : Z)
| JString (s : string)
| JArray (items : list Json)
| JObject (members : list (string * Json)).
#[local] Set Elimination Schemes.

Module SessionSchema.

Inductive SessionStatus : Type := ACTIVE | COMPLETED.

(** The declared properties of a [Session] document ([endedAt] is
    optional).  The store's own bookkeeping of a document ([_id], [__v],
    [createdAt], [updatedAt]) is no part of the record. *)
Record Session : Type := mkSession {
  sessionId : string;
  status : SessionStatus;
  language : string;
  startedAt : Date;
  endedAt : option Date
}.

End SessionSchema.

Module EventSchema.

Inductive EventType : Type :=
| MESSAGE_SENT
| MESSAGE_RECEIVED
| USER_JOINED
| USER_LEFT.

Record Event : Type := mkEvent {
  eventId : string;
  sessionId : string;
  type : EventType;
  payload : list (string * Json);
  timestamp : Date
}.

End EventSchema.

Module Dto.

Record CreateSessionDto : Type := mkCreateSessionDto {
  sessionId : string;
  language : string
}.

(** [timestamp] is validated as a date string; the model carries the
    instant that [new Date(dto.timestamp)] yields. *)
Record CreateEventDto : Type := mkCreateEventDto {
  eventId : string;
  type : EventSchema.EventType;
  payload : list (string * Json);
  timestamp : Date
}.

(** Modelled from the spec: [dto/pagination.dto.ts] is not among the
    sources.  The record has the two optional counts that [getSession]
    reads ([None] is [undefined]); what the validation of a request
    lets into it is [fromQuery] below. *)
Record PaginationDto : Type := mkPaginationDto {
  limit : option nat;
  offset : option nat
}.



End Dto.

Import SessionSchema.

(** ** Thrown values *)

Inductive Exn : Type :=
| MongoServerError (code : Z) (message : string)
| ValidationError (message : string)
| NotFoundException (message : string)
| InternalServerErrorException (message : string).

(** [error.code]: only the storage engine's errors carry one. *)
Definition errorCode (error : Exn) : option Z :=
  match error with
  | MongoServerError c _ => Some c
  | _ => None
  end.

Definition E11000 : Exn := MongoServerError 11000 "E11000 duplicate key error".

(** [error.code === 11000] *)
Definition isDuplicateKey (error : Exn) : bool :=
  match errorCode error with
  | Some c => Z.eqb c 11000
  | None => false
  end.

(** ** The stored state and the effect monad *)

Record Db : Type := mkDb {
  sessions : list Session;
  events : list EventSchema.Event
}.

(** A fault is what the storage engine throws when a call fails for a
    reason that is not in the data: [(code, message)]. *)
Definition Fault : Type := (Z * string)%type.

(** The world of a request: the database and the fault plan, one entry
    for each storage call still to come ([None]: the call goes through;
    a call past the end of the plan goes through). *)
Record World : Type := mkWorld {
  db : Db;
  faults : list (option Fault)
}.

(** An [async] function: it runs on the world and either returns or
    throws; what it wrote before throwing stays written. *)
Definition M (A : Type) : Type := World -> (Exn + A) * World.

Definition ret {A} (a : A) : M A := fun w => (inr a, w).

Definition throw {A} (e : Exn) : M A := fun w => (inl e, w).

Definition bind {A B} (m : M A) (k : A -> M B) : M B :=
  fun w =>
    match m w with
    | (inr a, w') => k a w'
    | (inl e, w') => (inl e, w')
    end.

Definition tryCatch {A} (body : M A) (handler : Exn -> M A) : M A :=
  fun w =>
    match body w with
    | (inr a, w') => (inr a, w')
    | (inl e, w') => handler e w'
    end.

Declare Scope async_scope.
Delimit Scope async_scope with async.
Notation "x <- m ;; k" := (bind m (fun x => k))
  (at level 61, m at next level, right associativity) : async_scope.
Notation "'try' body 'catch' handler" := (tryCatch body handler)
  (at level 62, body at next level, handler at next level) : async_scope.
Local Open Scope async_scope.

(** One storage round trip: the next entry of the fault plan decides
    whether the call throws (and then writes nothing) or runs [op]. *)
Definition storageCall {A} (op : Db -> (Exn + A) * Db) : M A :=
  fun w =>
    match faults w with
    | Some (c, msg) :: rest =>
        (inl (MongoServerError c msg), mkWorld (db w) rest)
    | None :: rest =>
        let (r, d) := op (db w) in (r, mkWorld d rest)
    | [] =>
        let (r, d) := op (db w) in (r, mkWorld d [])
    end.

(** ** The session model *)

Module SessionModel.

(** A partial document: the properties named by [$set] or
    [$setOnInsert]. *)
Record Fields : Type := mkFields {
  f_sessionId : option string;
  f_status : option SessionStatus;
  f_language : option string;
  f_startedAt : option Date;
  f_endedAt : option Date
}.

Definition noFields : Fields := mkFields None None None None None.

Record UpdateQuery : Type := mkUpdateQuery {
  op_set : Fields;
  op_setOnInsert : Fields
}.

Record QueryOptions : Type := mkQueryOptions {
  upsert : bool;
  new : bool
}.

Definition orElse {A} (o : option A) (d : A) : A :=
  match o with Some a => a | None => d end.

Definition firstOf {A} (o1 o2 : option A) : option A :=
  match o1 with Some a => Some a | None => o2 end.

(** Field-wise assignment on a stored document. *)
Definition applyFields (f : Fields) (s : Session) : Session :=
  mkSession
    (orElse (f_sessionId f) (sessionId s))
    (orElse (f_status f) (status s))
    (orElse (f_language f) (language s))
    (orElse (f_startedAt f) (startedAt s))
    (firstOf (f_endedAt f) (endedAt s)).

(** The document an upsert inserts: the filter's equality, then [$set],
    then [$setOnInsert]; [status] has the schema default [ACTIVE];
    [language] and [startedAt] are required. *)
Definition newDocument (id : string) (u : UpdateQuery) : option Session :=
  let f := op_set u in
  let g := op_setOnInsert u in
  match firstOf (f_language g) (f_language f),
        firstOf (f_startedAt g) (f_startedAt f) with
  | Some lang, Some started =>
      Some (mkSession
              (orElse (firstOf (f_sessionId g) (f_sessionId f)) id)
              (orElse (firstOf (f_status g) (f_status f)) ACTIVE)
              lang
              started
              (firstOf (f_endedAt g) (f_endedAt f)))
  | _, _ => None
  end.

(** The filter [{ sessionId }]. *)
Definition hasId (id : string) (s : Session) : bool :=
  String.eqb (sessionId s) id.

(** Replace the first document that matches. *)
Fixpoint replaceFirst (id : string) (s' : Session) (ss : list Session)
  : list Session :=
  match ss with
  | [] => []
  | s :: rest =>
      if hasId id s then s' :: rest else s :: replaceFirst id s' rest
  end.

Definition findOne_op (id : string) (d : Db) : (Exn + option Session) * Db :=
  (inr (find (hasId id) (sessions d)), d).

(** [findOneAndUpdate(filter, update, options)].  The unique index on
    [sessionId] rejects a write that would give two documents one id. *)
Definition findOneAndUpdate_op (id : string) (u : UpdateQuery)
    (o : QueryOptions) (d : Db) : (Exn + option Session) * Db :=
  match find (hasId id) (sessions d) with
  | Some s =>
      let s' := applyFields (op_set u) s in
      if String.eqb (sessionId s') (sessionId s)
         || negb (existsb (hasId (sessionId s')) (sessions d))
      then (inr (Some (if new o then s' else s)),
            mkDb (replaceFirst id s' (sessions d)) (events d))
      else (inl E11000, d)
  | None =>
      if upsert o then
        match newDocument id u with
        | Some doc =>
            if existsb (hasId (sessionId doc)) (sessions d)
            then (inl E11000, d)
            else (inr (if new o then Some doc else None),
                  mkDb (sessions d ++ [doc]) (events d))
        | None =>
            (inl (ValidationError "Session validation failed"), d)
        end
      else (inr None, d)
  end.

Definition findOne (id : string) : M (option Session) :=
  storageCall (findOne_op id).

Definition findOneAndUpdate (id : string) (u : UpdateQuery)
    (o : QueryOptions) : M (option Session) :=
  storageCall (findOneAndUpdate_op id u o).

End SessionModel.

(** ** The event model *)

Module EventModel.

Import EventSchema.

(** The filter [{ sessionId }]. *)
Definition inSession (sid : string) (e : Event) : bool :=
  String.eqb (sessionId e) sid.

(** The filter [{ sessionId, eventId }], the key of the compound
    unique index. *)
Definition hasKey (sid eid : string) (e : Event) : bool :=
  String.eqb (sessionId e) sid && String.eqb (eventId e) eid.

(** What is left of a value when a document is saved: the schema's
    default [minimize] drops every object that holds nothing, from the
    inside out; [None] is [undefined].  Arrays are stored as they are. *)
Fixpoint minimizeJson (j : Json) : option Json :=
  match j with
  | JObject members =>
      let fix fields (ms : list (string * Json)) : list (string * Json) :=
        match ms with
        | [] => []
        | (k, v) :: rest =>
            match v with
            | JObject _ =>
                match minimizeJson v with
                | Some v' => (k, v') :: fields rest
                | None => fields rest
                end
            | _ => (k, v) :: fields rest
            end
        end in
      match fields members with
      | [] => None
      | kept => Some (JObject kept)
      end
  | _ => Some j
  end.

(** The stored form of a payload.  The empty list stands for a payload
    that is stored as an absent property. *)
Definition minimize (payload : list (string * Json)) : list (string * Json) :=
  match minimizeJson (JObject payload) with
  | Some (JObject kept) => kept
  | _ => []
  end.

(** The document as it is written to the collection. *)
Definition stored (doc : Event) : Event :=
  mkEvent (eventId doc) (sessionId doc) (type doc) (minimize (payload doc))
    (timestamp doc).

(** [create(doc)]: rejected with code 11000 when a stored event has the
    document's [(sessionId, eventId)]; otherwise the document is
    appended in its stored form and returned as it was built.  The ids
    of a document are taken to be non-empty, which is what the request
    validation ([@IsNotEmpty] on [eventId] and on the [sessionId] a
    session is created under) lets through: the schema's own check of
    its required paths, which fails on an empty id, is not exercised. *)
Definition create_op (doc : Event) (d : Db) : (Exn + Event) * Db :=
  if existsb (hasKey (sessionId doc) (eventId doc)) (events d)
  then (inl E11000, d)
  else (inr doc, mkDb (sessions d) (events d ++ [stored doc])).

Definition findOne_op (sid eid : string) (d : Db)
  : (Exn + option Event) * Db :=
  (inr (List.find (hasKey sid eid) (events d)), d).

Definition countDocuments_op (sid : string) (d : Db) : (Exn + nat) * Db :=
  (inr (List.length (filter (inSession sid) (events d))), d).

(** Ascending by [timestamp].  [insertByTimestamp] puts an event before
    the events that are not earlier than it, so that in
    [sortByTimestamp], which inserts from the last stored event to the
    first, events of equal timestamp keep their storage order.  The
    store promises no order between equal timestamps: the properties
    below that speak of an order speak of some ascending order, or take
    the timestamps to be distinct. *)
Fixpoint insertByTimestamp (e : Event) (l : list Event) : list Event :=
  match l with
  | [] => [e]
  | x :: rest =>
      if Z.leb (timestamp e) (timestamp x)
      then e :: x :: rest
      else x :: insertByTimestamp e rest
  end.

Definition sortByTimestamp (l : list Event) : list Event :=
  fold_right insertByTimestamp [] l.

(** The query built by [find(...).sort(...).skip(...).limit(...)]. *)
Record Query : Type := mkQuery {
  q_sessionId : string;
  q_sort : bool;
  q_skip : nat;
  q_limit : option nat
}.

Definition find (sid : string) : Query := mkQuery sid false 0 None.

Definition sort (q : Query) : Query :=
  mkQuery (q_sessionId q) true (q_skip q) (q_limit q).

Definition skip (n : nat) (q : Query) : Query :=
  mkQuery (q_sessionId q) (q_sort q) n (q_limit q).

Definition limit (n : nat) (q : Query) : Query :=
  mkQuery (q_sessionId q) (q_sort q) (q_skip q) (Some n).

(** A limit of [n] keeps the first [n] documents; the engine reads a
    limit of 0 as no limit. *)
Definition takeLimit (n : nat) (l : list Event) : list Event :=
  match n with
  | O => l
  | S _ => firstn n l
  end.

(** The engine filters, sorts, skips and then limits, whatever the
    order in which the query was built. *)
Definition exec_op (q : Query) (d : Db) : (Exn + list Event) * Db :=
  let matched := filter (inSession (q_sessionId q)) (events d) in
  let sorted := if q_sort q then sortByTimestamp matched else matched in
  let skipped := skipn (q_skip q) sorted in
  (inr (match q_limit q with
        | Some n => takeLimit n skipped
        | None => skipped
        end), d).

Definition create (doc : Event) : M Event := storageCall (create_op doc).

Definition findOne (sid eid : string) : M (option Event) :=
  storageCall (findOne_op sid eid).

Definition countDocuments (sid : string) : M nat :=
  storageCall (countDocuments_op sid).

Definition exec (q : Query) : M (list Event) := storageCall (exec_op q).

End EventModel.

(** ** The service *)

Module ConversationsService.

Import SessionModel.

Definition notFound (sessionId : string) : Exn :=
  NotFoundException ("Session " ++ sessionId ++ " not found")%string.

(** [createSession(dto)]; [now] is the value of [new Date()]. *)
Definition createSession (dto : Dto.CreateSessionDto) (now : Date)
  : M (option Session) :=
  try (
    session <- SessionModel.findOneAndUpdate
      (Dto.sessionId dto)
      {| op_set := noFields;
         op_setOnInsert :=
           {| f_sessionId := Some (Dto.sessionId dto);
              f_language := Some (Dto.language dto);
              f_status := Some ACTIVE;
              f_startedAt := Some now;
              f_endedAt := None |} |}
      {| upsert := true; new := true |} ;;
    ret session
  ) catch (fun error =>
    throw (InternalServerErrorException "Failed to create session")).

(** The first storage call of [addEvent] inside its [try]. *)
Definition addEvent_insert (sessionId : string) (dto : Dto.CreateEventDto)
  : M EventSchema.Event :=
  event <- EventModel.create
    {| EventSchema.eventId := Dto.eventId dto;
       EventSchema.sessionId := sessionId;
       EventSchema.type := Dto.type dto;
       EventSchema.payload := Dto.payload dto;
       EventSchema.timestamp := Dto.timestamp dto |} ;;
  ret event.

(** The [catch] block of [addEvent]. *)
Definition addEvent_catch (sessionId : string) (dto : Dto.CreateEventDto)
    (error : Exn) : M EventSchema.Event :=
  if isDuplicateKey error then
    existingEvent <- EventModel.findOne sessionId (Dto.eventId dto) ;;
    match existingEvent with
    | None =>
        throw (InternalServerErrorException
                 "Duplicate key error but event not found")
    | Some e => ret e
    end
  else throw (InternalServerErrorException "Failed to add event").

Definition addEvent (sessionId : string) (dto : Dto.CreateEventDto)
  : M EventSchema.Event :=
  session <- SessionModel.findOne sessionId ;;
  match session with
  | None => throw (notFound sessionId)
  | Some _ =>
      try (addEvent_insert sessionId dto)
      catch (addEvent_catch sessionId dto)
  end.

Record Pagination : Type := mkPagination {
  total : nat;
  limit : nat;
  offset : nat;
  hasMore : bool;
  nextOffset : option nat
}.

Record SessionPage : Type := mkSessionPage {
  session : Session;
  events : list EventSchema.Event;
  pagination : Pagination
}.

Definition getSession (sessionId : string)
    (paginationDto : Dto.PaginationDto) : M SessionPage :=
  session <- SessionModel.findOne sessionId ;;
  match session with
  | None => throw (notFound sessionId)
  | Some session =>
      let limit := orElse (Dto.limit paginationDto) 50 in
      let offset := orElse (Dto.offset paginationDto) 0 in
      events <- EventModel.exec
        (EventModel.limit limit
           (EventModel.skip offset
              (EventModel.sort (EventModel.find sessionId)))) ;;
      total <- EventModel.countDocuments sessionId ;;
      let hasMore := offset + limit <? total in
      let nextOffset := if hasMore then Some (offset + limit) else None in
      ret {| session := session;
             events := events;
             pagination :=
               {| total := total;
                  limit := limit;
                  offset := offset;
                  hasMore := hasMore;
                  nextOffset := nextOffset |} |}
  end.

(** [completeSession(sessionId)]; [now] is the value of [new Date()]. *)
Definition completeSession (sessionId : string) (now : Date) : M Session :=
  session <- SessionModel.findOneAndUpdate
    sessionId
    {| op_set :=
         {| f_sessionId := None;
            f_status := Some COMPLETED;
            f_language := None;
            f_startedAt := None;
            f_endedAt := Some now |};
       op_setOnInsert := noFields |}
    {| upsert := false; new := true |} ;;
  match session with
  | None => throw (notFound sessionId)
  | Some session => ret session
  end.

End ConversationsService.

(** ** The controller: what a caller sees *)

Module ConversationsController.

(** The status of a response: the route's [@HttpCode] when the handler
    returns, the exception's own status when it throws (an error that
    is not an HTTP exception is answered with 500). *)
Definition statusOf {A} (httpCode : Z) (r : Exn + A) : Z :=
  match r with
  | inr _ => httpCode
  | inl (NotFoundException _) => 404
  | inl _ => 500
  end.

Definition CREATED : Z := 201.
Definition OK : Z := 200.

Definition respond {A} (httpCode : Z) (m : M A) : M (Z * (Exn + A)) :=
  fun w => let (r, w') := m w in (inr (statusOf httpCode r, r), w').

Definition createSession (createSessionDto : Dto.CreateSessionDto) (now : Date) :=
  respond CREATED (ConversationsService.createSession createSessionDto now).

Definition addEvent (sessionId : string) (createEventDto : Dto.CreateEventDto) :=
  respond CREATED (ConversationsService.addEvent sessionId createEventDto).

Definition getSession (sessionId : string) (paginationDto : Dto.PaginationDto) :=
  respond OK (ConversationsService.getSession sessionId paginationDto).

Definition completeSession (sessionId : string) (now : Date) :=
  respond OK (ConversationsService.completeSession sessionId now).

End ConversationsController.

(** ** Requests over time *)

(** One call of the service, with the clock reading it sees. *)
Inductive Request : Type :=
| CreateSession (dto : Dto.CreateSessionDto) (now : Date)
| AddEvent (sessionId : string) (dto : Dto.CreateEventDto)
| GetSession (sessionId : string) (paginationDto : Dto.PaginationDto)
| CompleteSession (sessionId : string) (now : Date).

(** The world a request leaves behind. *)
Definition handle (r : Request) (w : World) : World :=
  match r with
  | CreateSession dto now => snd (ConversationsService.createSession dto now w)
  | AddEvent sid dto => snd (ConversationsService.addEvent sid dto w)
  | GetSession sid p => snd (ConversationsService.getSession sid p w)
  | CompleteSession sid now => snd (ConversationsService.completeSession sid now w)
  end.

Definition handleAll (rs : list Request) (w : World) : World :=
  fold_left (fun w r => handle r w) rs w.

(** The document [createSession] asks the store to insert. *)
Definition freshSession (dto : Dto.CreateSessionDto) (now : Date) : Session :=
  mkSession (Dto.sessionId dto) ACTIVE (Dto.language dto) now None.

(** The document [addEvent] asks the store to insert. *)
Definition eventOf (sessionId : string) (dto : Dto.CreateEventDto)
  : EventSchema.Event :=
  EventSchema.mkEvent (Dto.eventId dto) sessionId (Dto.type dto)
    (Dto.payload dto) (Dto.timestamp dto).

Module Svc := ConversationsService.

(** A world with no storage fault to come. *)
Definition quiet (d : Db) : World := mkWorld d [].

(** The events of one session, in storage order. *)
Definition eventsOfSession (sid : string) (d : Db) : list EventSchema.Event :=
  filter (EventModel.inSession sid) (events d).


(** A computation all of whose runs take the database from [d] to some
    [d'] with [R d d']. *)
Definition respects (R : Db -> Db -> Prop) {A} (m : M A) : Prop :=
  forall w, R (db w) (db (snd (m w))).

(** Events are only ever added, at the end. *)
Definition eventsGrow (d d' : Db) : Prop :=
  exists added, events d' = events d ++ added.

(** No fault of the plan carries the duplicate-key code: the engine
    reports a duplicate key only when a unique index rejects a write. *)
Definition noDuplicateKeyFault (fs : list (option Fault)) : Prop :=
  Forall (fun f => match f with
                   | Some (c, _) => c <> 11000%Z
                   | None => True
                   end) fs.

(** The ids of the stored sessions, one entry for each record. *)
Definition sessionIds (d : Db) : list string := map sessionId (sessions d).

(** What a later record [s'] of a session owes to an earlier one [s]:
    the same id, [startedAt] and [language], and [COMPLETED] stays
    [COMPLETED]. *)
Definition lifecycle (s s' : Session) : Prop :=
  sessionId s' = sessionId s
  /\ startedAt s' = startedAt s
  /\ language s' = language s
  /\ (status s = COMPLETED -> status s' = COMPLETED).

(** A sessions collection [ss'] that may follow [ss]: ids stay unique
    and every record of [ss] has its successor in [ss']. *)
Definition evolves (ss ss' : list Session) : Prop :=
  (NoDup (map sessionId ss) -> NoDup (map sessionId ss'))
  /\ (forall s, In s ss -> exists s', In s' ss' /\ lifecycle s s').

(** One step of the session lifecycle, on databases. *)
Definition lifecycleStep (d d' : Db) : Prop :=
  evolves (sessions d) (sessions d').

(** ** Sample data *)

Module Sample.

Definition hello : list (string * Json) := [("text", JString "hello")].

Definition bye : list (string * Json) := [("text", JString "bye")].

Definition s1 : Session := mkSession "s1" ACTIVE "en" 1000 None.

Definition s2 : Session := mkSession "s2" COMPLETED "fr" 1500 (Some 1800%Z).

Definition e1 : EventSchema.Event :=
  EventSchema.mkEvent "e1" "s1" EventSchema.USER_JOINED hello 30.

Definition e2 : EventSchema.Event :=
  EventSchema.mkEvent "e2" "s1" EventSchema.MESSAGE_SENT hello 10.

Definition e3 : EventSchema.Event :=
  EventSchema.mkEvent "e1" "s2" EventSchema.MESSAGE_RECEIVED bye 20.

Definition store : Db := mkDb [s1; s2] [e1; e2; e3].

Definition empty : Db := mkDb [] [].

(** A retry of [e1] that disagrees with the stored event on every
    property but the key. *)
Definition retry : Dto.CreateEventDto :=
  Dto.mkCreateEventDto "e1" EventSchema.USER_LEFT bye 99.

(** [n] events of session [sid], stored latest first: the event stored
    at position [i] carries timestamp [n - i]. *)
Fixpoint eventsOf (sid : string) (n : nat) : list EventSchema.Event :=
  match n with
  | O => []
  | S k =>
      EventSchema.mkEvent (String (Ascii.ascii_of_nat n) EmptyString) sid
        EventSchema.MESSAGE_SENT [] (Z.of_nat n)
      :: eventsOf sid k
  end.

Definition busy (n : nat) : Db := mkDb [s1] (eventsOf "s1" n ++ [e3]).

(** A day of traffic on [store], with one storage fault on the way. *)
Definition requests : list Request :=
  [ CreateSession (Dto.mkCreateSessionDto "s1" "de") 5000;
    CompleteSession "s1" 6000;
    CreateSession (Dto.mkCreateSessionDto "s1" "it") 7000;
    AddEvent "s1" retry;
    GetSession "s1" (Dto.mkPaginationDto None None);
    CreateSession (Dto.mkCreateSessionDto "s3" "es") 8000;
    CompleteSession "s1" 9000 ].

Definition plan : list (option Fault) :=
  [None; None; Some (11000%Z, "E11000 duplicate key error")].

End Sample.

(** ** Further notions *)

(** The keys of the stored events under the compound unique index. *)
Definition eventKeys (d : Db) : list (string * string) :=
  map (fun e => (EventSchema.sessionId e, EventSchema.eventId e)) (events d).

(** Every stored event names a stored session. *)
Definition eventsOwned (d : Db) : Prop :=
  forall e, In e (events d) -> In (EventSchema.sessionId e) (sessionIds d).

(** [endedAt] is absent on an active session and present on a completed
    one. *)
Definition wellEnded (s : Session) : Prop :=
  match status s, endedAt s with
  | ACTIVE, None => True
  | COMPLETED, Some _ => True
  | _, _ => False
  end.

(** The request whose event, taken as it is, is the stored form of the
    event of [dto]. *)
Definition storedDto (dto : Dto.CreateEventDto) : Dto.CreateEventDto :=
  Dto.mkCreateEventDto (Dto.eventId dto) (Dto.type dto)
    (EventModel.minimize (Dto.payload dto)) (Dto.timestamp dto).

(** The record [completeSession] writes over [s]. *)
Definition completedAt (s : Session) (now : Date) : Session :=
  mkSession (sessionId s) COMPLETED (language s) (startedAt s) (Some now).

Definition isCompleteSession (r : Request) : bool :=
  match r with
  | CompleteSession _ _ => true
  | _ => false
  end.

(** [getSession] with both counts given. *)
Definition pageAt (sid : string) (limit offset : nat) : M Svc.SessionPage :=
  Svc.getSession sid (Dto.mkPaginationDto (Some limit) (Some offset)).

(** The writes a request can make: none, a new session under a free
    id, a new event of a stored session under a free key, or the
    completed record over a stored session. *)
Inductive Effect (d : Db) : Db -> Prop :=
| NoWrite : Effect d d
| SessionAdded (dto : Dto.CreateSessionDto) (now : Date) :
    List.find (SessionModel.hasId (Dto.sessionId dto)) (sessions d) = None ->
    Effect d (mkDb (sessions d ++ [freshSession dto now]) (events d))
| EventAdded (sid : string) (dto : Dto.CreateEventDto) (s : Session) :
    List.find (SessionModel.hasId sid) (sessions d) = Some s ->
    List.find (EventModel.hasKey sid (Dto.eventId dto)) (events d) = None ->
    Effect d (mkDb (sessions d) (events d ++ [eventOf sid dto]))
| SessionCompleted (sid : string) (now : Date) (s : Session) :
    List.find (SessionModel.hasId sid) (sessions d) = Some s ->
    Effect d (mkDb (SessionModel.replaceFirst sid (completedAt s now)
                      (sessions d))
                (events d)).

Module Sample2.

(** A store where session [s2], completed, has no event yet and the
    event id [e1] is in use under [s1] only. *)
Definition store : Db := mkDb [Sample.s1; Sample.s2] [Sample.e1; Sample.e2].

Definition fresh : Dto.CreateEventDto :=
  Dto.mkCreateEventDto "e1" EventSchema.USER_LEFT Sample.bye 99.

Definition timeout : Fault := (89%Z, "network timeout").


End Sample2.

(** * Properties *)

(** ** Lists of documents *)

Section Lookup.

Context {A : Type} (p : A -> bool).

Lemma find_none_existsb (l : list A) :
  List.find p l = None -> existsb p l = false.
Proof.
  induction l as [|x l IH]; simpl; [reflexivity|].
  destruct (p x); [discriminate | exact IH].
Qed.

Lemma find_some_existsb (l : list A) (x : A) :
  List.find p l = Some x -> existsb p l = true.
Proof.
  induction l as [|y l IH]; simpl; [discriminate|].
  destruct (p y); [reflexivity | exact IH].
Qed.

Lemma existsb_true_find (l : list A) :
  existsb p l = true -> exists x, List.find p l = Some x.
Proof.
  induction l as [|y l IH]; simpl; [discriminate|].
  destruct (p y); [eexists; reflexivity | exact IH].
Qed.

(** Appending never changes what an earlier lookup found. *)
Lemma find_app_some (l l' : list A) (x : A) :
  List.find p l = Some x -> List.find p (l ++ l') = Some x.
Proof.
  induction l as [|y l IH]; simpl; [discriminate|].
  destruct (p y); [trivial | exact IH].
Qed.

Lemma find_app_none (l l' : list A) :
  List.find p l = None -> List.find p (l ++ l') = List.find p l'.
Proof.
  induction l as [|y l IH]; simpl; [reflexivity|].
  destruct (p y); [discriminate | exact IH].
Qed.

End Lookup.

Module SessionFacts.

Import SessionModel.

Lemma hasId_refl (s : Session) : hasId (sessionId s) s = true.
Proof. unfold hasId. apply String.eqb_refl. Qed.

Lemma hasId_eq (id : string) (s : Session) :
  hasId id s = true <-> sessionId s = id.
Proof. unfold hasId. apply String.eqb_eq. Qed.

Lemma find_hasId (id : string) (ss : list Session) (s : Session) :
  List.find (hasId id) ss = Some s -> In s ss /\ sessionId s = id.
Proof.
  intros H. apply find_some in H. destruct H as [Hin Hid].
  split; [exact Hin | now apply hasId_eq].
Qed.

Lemma applyFields_noFields (s : Session) : applyFields noFields s = s.
Proof. destruct s; reflexivity. Qed.

(** Writing back the document that was found changes nothing. *)
Lemma replaceFirst_same (id : string) (ss : list Session) (s : Session) :
  List.find (hasId id) ss = Some s -> replaceFirst id s ss = ss.
Proof.
  induction ss as [|x ss IH]; simpl; [reflexivity|].
  destruct (hasId id x).
  - intros [= ->]. reflexivity.
  - intros H. now rewrite IH.
Qed.

(** A replacement that keeps the id keeps the ids of the collection. *)
Lemma replaceFirst_ids (id : string) (s' : Session) (ss : list Session) :
  sessionId s' = id ->
  map sessionId (replaceFirst id s' ss) = map sessionId ss.
Proof.
  intros Hid. induction ss as [|x ss IH]; simpl; [reflexivity|].
  destruct (hasId id x) eqn:E; simpl.
  - apply hasId_eq in E. now rewrite Hid, E.
  - now rewrite IH.
Qed.

Lemma find_replaceFirst (id : string) (s s' : Session) (ss : list Session) :
  List.find (hasId id) ss = Some s -> sessionId s' = id ->
  List.find (hasId id) (replaceFirst id s' ss) = Some s'.
Proof.
  intros Hf Hid. induction ss as [|x ss IH]; simpl in *; [discriminate|].
  destruct (hasId id x) eqn:E; simpl.
  - rewrite (proj2 (hasId_eq id s') Hid). reflexivity.
  - rewrite E. now apply IH.
Qed.

Lemma db_eta (d : Db) : mkDb (sessions d) (events d) = d.
Proof. destruct d; reflexivity. Qed.

End SessionFacts.

Module EventFacts.

Import EventSchema EventModel.

Lemma hasKey_eq (sid eid : string) (e : Event) :
  hasKey sid eid e = true <-> sessionId e = sid /\ eventId e = eid.
Proof.
  unfold hasKey. rewrite andb_true_iff, !String.eqb_eq. tauto.
Qed.

End EventFacts.

(** A storage call that meets no fault is the operation itself. *)
Lemma storageCall_quiet {A} (op : Db -> (Exn + A) * Db) (d : Db) :
  storageCall op (quiet d) = (fst (op d), quiet (snd (op d))).
Proof. unfold storageCall, quiet; simpl. destruct (op d); reflexivity. Qed.

(** A storage call that meets a fault throws it and writes nothing. *)
Lemma storageCall_fault {A} (op : Db -> (Exn + A) * Db) (d : Db)
    (c : Z) (msg : string) (fs : list (option Fault)) :
  storageCall op (mkWorld d (Some (c, msg) :: fs))
  = (inl (MongoServerError c msg), mkWorld d fs).
Proof. reflexivity. Qed.

Section CreateSession.

Import SessionModel SessionFacts.

(** An update that sets nothing returns the stored document and leaves
    the store as it was. *)
Lemma findOneAndUpdate_noop (id : string) (u : UpdateQuery)
    (o : QueryOptions) (d : Db) (s : Session) :
  List.find (hasId id) (sessions d) = Some s ->
  op_set u = noFields ->
  findOneAndUpdate_op id u o d = (inr (Some s), d).
Proof.
  intros Hf Hu. unfold findOneAndUpdate_op. rewrite Hf, Hu. cbv zeta.
  rewrite applyFields_noFields, String.eqb_refl. cbn [orb].
  rewrite (replaceFirst_same _ _ _ Hf), db_eta.
  destruct (new o); reflexivity.
Qed.

Lemma createSession_existing (d : Db) (dto : Dto.CreateSessionDto)
    (now : Date) (s : Session) :
  List.find (hasId (Dto.sessionId dto)) (sessions d) = Some s ->
  Svc.createSession dto now (quiet d) = (inr (Some s), quiet d).
Proof.
  intros Hf.
  unfold Svc.createSession, tryCatch, bind, findOneAndUpdate.
  rewrite storageCall_quiet.
  rewrite findOneAndUpdate_noop with (s := s) by (trivial || reflexivity).
  reflexivity.
Qed.

Lemma createSession_absent (d : Db) (dto : Dto.CreateSessionDto)
    (now : Date) :
  List.find (hasId (Dto.sessionId dto)) (sessions d) = None ->
  Svc.createSession dto now (quiet d)
  = (inr (Some (freshSession dto now)),
     quiet (mkDb (sessions d ++ [freshSession dto now]) (events d))).
Proof.
  intros Hf.
  unfold Svc.createSession, tryCatch, bind, findOneAndUpdate.
  rewrite storageCall_quiet.
  unfold findOneAndUpdate_op. rewrite Hf. cbn.
  rewrite (find_none_existsb _ _ Hf). reflexivity.
Qed.

(** Any error of the storage call ends in the one internal error; the
    call is not repeated and nothing is read back. *)
Lemma createSession_fault (d : Db) (dto : Dto.CreateSessionDto)
    (now : Date) (c : Z) (msg : string) (fs : list (option Fault)) :
  Svc.createSession dto now (mkWorld d (Some (c, msg) :: fs))
  = (inl (InternalServerErrorException "Failed to create session"),
     mkWorld d fs).
Proof. reflexivity. Qed.

End CreateSession.

(** C1. [createSession] is idempotent.  When a session with the given
    [sessionId] is stored, the call returns that very record and leaves
    the store as it was, whatever [language] and clock reading it is
    given: [status], [startedAt] and [language] keep their values.  Only
    when no record has the id does it store and return a new one with
    [status = ACTIVE], [startedAt = now] and the given [language].  A
    second call for the same id, made after the first, returns what the
    first returned and changes nothing. *)
Theorem createSession_idempotent (d : Db) (dto : Dto.CreateSessionDto)
    (now : Date) :
  (forall s,
      List.find (SessionModel.hasId (Dto.sessionId dto)) (sessions d) = Some s ->
      Svc.createSession dto now (quiet d) = (inr (Some s), quiet d))
  /\ (List.find (SessionModel.hasId (Dto.sessionId dto)) (sessions d) = None ->
      Svc.createSession dto now (quiet d)
      = (inr (Some (mkSession (Dto.sessionId dto) ACTIVE (Dto.language dto)
                      now None)),
         quiet (mkDb (sessions d
                      ++ [mkSession (Dto.sessionId dto) ACTIVE
                            (Dto.language dto) now None])
                  (events d))))
  /\ (forall language' now',
      Svc.createSession (Dto.mkCreateSessionDto (Dto.sessionId dto) language')
        now' (snd (Svc.createSession dto now (quiet d)))
      = Svc.createSession dto now (quiet d)).
Proof.
  split; [| split].
  - intros s Hf. now apply createSession_existing.
  - intros Hf. now apply createSession_absent.
  - intros language' now'.
    destruct (List.find (SessionModel.hasId (Dto.sessionId dto)) (sessions d))
      as [s|] eqn:Hf.
    + rewrite (createSession_existing _ _ _ _ Hf). cbn [snd].
      now apply createSession_existing.
    + rewrite (createSession_absent _ _ _ Hf). cbn [snd].
      apply createSession_existing. cbn [sessions Dto.sessionId].
      rewrite (find_app_none _ _ _ Hf). cbn.
      unfold SessionModel.hasId, freshSession. cbn.
      now rewrite String.eqb_refl.
Qed.

Lemma createSession_idempotent_witness :
  Svc.createSession (Dto.mkCreateSessionDto "s2" "de") 7777 (quiet Sample.store)
  = (inr (Some Sample.s2), quiet Sample.store)
  /\ Svc.createSession (Dto.mkCreateSessionDto "s3" "de") 7777 (quiet Sample.store)
     = (inr (Some (mkSession "s3" ACTIVE "de" 7777 None)),
        quiet (mkDb [Sample.s1; Sample.s2; mkSession "s3" ACTIVE "de" 7777 None]
                 (events Sample.store))).
Proof.
  split.
  - exact (proj1 (createSession_idempotent Sample.store
                    (Dto.mkCreateSessionDto "s2" "de") 7777)
             Sample.s2 eq_refl).
  - exact (proj1 (proj2 (createSession_idempotent Sample.store
                           (Dto.mkCreateSessionDto "s3" "de") 7777))
             eq_refl).
Defined.

Section AddEvent.

Import SessionFacts EventFacts.

Variables (d : Db) (sid : string) (dto : Dto.CreateEventDto).

Lemma addEvent_absent :
  List.find (SessionModel.hasId sid) (sessions d) = None ->
  Svc.addEvent sid dto (quiet d) = (inl (Svc.notFound sid), quiet d).
Proof.
  intros Hs. unfold Svc.addEvent, bind, SessionModel.findOne.
  rewrite storageCall_quiet. unfold SessionModel.findOne_op. cbn [fst snd].
  rewrite Hs. reflexivity.
Qed.

Lemma addEvent_replay (s : Session) (e0 : EventSchema.Event) :
  List.find (SessionModel.hasId sid) (sessions d) = Some s ->
  List.find (EventModel.hasKey sid (Dto.eventId dto)) (events d) = Some e0 ->
  Svc.addEvent sid dto (quiet d) = (inr e0, quiet d).
Proof.
  intros Hs He. unfold Svc.addEvent, bind, SessionModel.findOne.
  rewrite storageCall_quiet. unfold SessionModel.findOne_op. cbn [fst snd].
  rewrite Hs.
  unfold tryCatch, Svc.addEvent_insert, bind, EventModel.create.
  rewrite storageCall_quiet. unfold EventModel.create_op.
  cbn [EventSchema.sessionId EventSchema.eventId].
  rewrite (find_some_existsb _ _ _ He). cbn [fst snd].
  unfold Svc.addEvent_catch. cbn [isDuplicateKey errorCode E11000 Z.eqb Pos.eqb].
  unfold bind, EventModel.findOne. rewrite storageCall_quiet.
  unfold EventModel.findOne_op. cbn [fst snd]. rewrite He. reflexivity.
Qed.

Lemma addEvent_fresh (s : Session) :
  List.find (SessionModel.hasId sid) (sessions d) = Some s ->
  List.find (EventModel.hasKey sid (Dto.eventId dto)) (events d) = None ->
  Svc.addEvent sid dto (quiet d)
  = (inr (eventOf sid dto),
     quiet (mkDb (sessions d)
              (events d ++ [EventModel.stored (eventOf sid dto)]))).
Proof.
  intros Hs He. unfold Svc.addEvent, bind, SessionModel.findOne.
  rewrite storageCall_quiet. unfold SessionModel.findOne_op. cbn [fst snd].
  rewrite Hs.
  unfold tryCatch, Svc.addEvent_insert, bind, EventModel.create.
  rewrite storageCall_quiet. unfold EventModel.create_op.
  cbn [EventSchema.sessionId EventSchema.eventId].
  rewrite (find_none_existsb _ _ He). reflexivity.
Qed.

End AddEvent.

(** C2. A retried [addEvent] is answered from the store.  When the
    session exists and an event with the same [(sessionId, eventId)] is
    stored, [addEvent] returns the stored event, whatever [type],
    [payload] and [timestamp] the retry carries, and leaves the store as
    it was: no property of the stored event is updated.  The caller gets
    the status of a first write, 201. *)
Theorem addEvent_replay_returns_stored (d : Db) (sid : string)
    (dto : Dto.CreateEventDto) (s : Session) (e0 : EventSchema.Event) :
  List.find (SessionModel.hasId sid) (sessions d) = Some s ->
  List.find (EventModel.hasKey sid (Dto.eventId dto)) (events d) = Some e0 ->
  Svc.addEvent sid dto (quiet d) = (inr e0, quiet d)
  /\ ConversationsController.addEvent sid dto (quiet d)
     = (inr (201%Z, inr e0), quiet d)
  /\ (forall d0 s0,
         List.find (SessionModel.hasId sid) (sessions d0) = Some s0 ->
         List.find (EventModel.hasKey sid (Dto.eventId dto)) (events d0) = None ->
         fst (ConversationsController.addEvent sid dto (quiet d0))
         = inr (201%Z,
                inr (EventSchema.mkEvent (Dto.eventId dto) sid (Dto.type dto)
                       (Dto.payload dto) (Dto.timestamp dto)))).
Proof.
  intros Hs He. split; [| split].
  - exact (addEvent_replay d sid dto s e0 Hs He).
  - unfold ConversationsController.addEvent, ConversationsController.respond.
    rewrite (addEvent_replay d sid dto s e0 Hs He). reflexivity.
  - intros d0 s0 Hs0 He0.
    unfold ConversationsController.addEvent, ConversationsController.respond.
    rewrite (addEvent_fresh d0 sid dto s0 Hs0 He0). reflexivity.
Qed.

Lemma addEvent_replay_returns_stored_witness :
  Svc.addEvent "s1" Sample.retry (quiet Sample.store)
  = (inr Sample.e1, quiet Sample.store).
Proof.
  exact (proj1 (addEvent_replay_returns_stored Sample.store "s1" Sample.retry
                  Sample.s1 Sample.e1 eq_refl eq_refl)).
Defined.

(** C5. [addEvent] for a [sessionId] that no session has fails with
    NotFound and creates no event: the store after the call is the store
    before it.  The events are left alone under every fault plan as
    well, where the call may fail with the storage error instead. *)
Theorem addEvent_unknown_session (d : Db) (sid : string)
    (dto : Dto.CreateEventDto) :
  List.find (SessionModel.hasId sid) (sessions d) = None ->
  Svc.addEvent sid dto (quiet d)
  = (inl (NotFoundException ("Session " ++ sid ++ " not found")%string), quiet d)
  /\ fst (ConversationsController.addEvent sid dto (quiet d))
     = inr (404%Z, inl (NotFoundException ("Session " ++ sid ++ " not found")%string))
  /\ forall fs, db (snd (Svc.addEvent sid dto (mkWorld d fs))) = d.
Proof.
  intros Hs. split; [| split].
  - exact (addEvent_absent d sid dto Hs).
  - unfold ConversationsController.addEvent, ConversationsController.respond.
    rewrite (addEvent_absent d sid dto Hs). reflexivity.
  - intros fs. unfold Svc.addEvent, bind, SessionModel.findOne, storageCall,
      SessionModel.findOne_op. cbn [faults db].
    destruct fs as [|[[c msg]|] fs]; try rewrite Hs; reflexivity.
Qed.

Lemma addEvent_unknown_session_witness :
  Svc.addEvent "s9" Sample.retry (quiet Sample.store)
  = (inl (NotFoundException "Session s9 not found"), quiet Sample.store).
Proof.
  exact (proj1 (addEvent_unknown_session Sample.store "s9" Sample.retry eq_refl)).
Defined.

(** ** Sorting by timestamp *)

Module SortFacts.

Import EventSchema EventModel.

Lemma insertByTimestamp_perm (e : Event) (l : list Event) :
  Permutation (insertByTimestamp e l) (e :: l).
Proof.
  induction l as [|x l IH]; simpl; [apply Permutation_refl|].
  destruct (Z.leb (timestamp e) (timestamp x)).
  - apply Permutation_refl.
  - eapply perm_trans; [apply perm_skip, IH | apply perm_swap].
Qed.

Lemma sortByTimestamp_perm (l : list Event) :
  Permutation (sortByTimestamp l) l.
Proof.
  induction l as [|x l IH]; simpl; [constructor|].
  eapply perm_trans; [apply insertByTimestamp_perm | now apply perm_skip].
Qed.



Lemma sortByTimestamp_length (l : list Event) :
  List.length (sortByTimestamp l) = List.length l.
Proof. apply Permutation_length, sortByTimestamp_perm. Qed.





End SortFacts.

(** ** What every run of the service respects *)

Section Respects.

Import SessionModel.

Variable R : Db -> Db -> Prop.
Hypothesis R_refl : forall d, R d d.
Hypothesis R_trans : forall d1 d2 d3, R d1 d2 -> R d2 d3 -> R d1 d3.

Lemma respects_ret {A} (a : A) : respects R (ret a).
Proof. intros w. apply R_refl. Qed.

Lemma respects_throw {A} (e : Exn) : respects R (@throw A e).
Proof. intros w. apply R_refl. Qed.

Lemma respects_bind {A B} (m : M A) (k : A -> M B) :
  respects R m -> (forall a, respects R (k a)) -> respects R (bind m k).
Proof.
  intros Hm Hk w. unfold bind. specialize (Hm w).
  destruct (m w) as [[e|a] w1]; cbn [snd] in *; [exact Hm|].
  eapply R_trans; [exact Hm | apply Hk].
Qed.

Lemma respects_tryCatch {A} (body : M A) (handler : Exn -> M A) :
  respects R body -> (forall e, respects R (handler e)) ->
  respects R (tryCatch body handler).
Proof.
  intros Hb Hh w. unfold tryCatch. specialize (Hb w).
  destruct (body w) as [[e|a] w1]; cbn [snd] in *; [| exact Hb].
  eapply R_trans; [exact Hb | apply Hh].
Qed.

Lemma respects_storageCall {A} (op : Db -> (Exn + A) * Db) :
  (forall d, R d (snd (op d))) -> respects R (storageCall op).
Proof.
  intros Hop [d fs]. unfold storageCall. cbn [faults db].
  specialize (Hop d).
  destruct fs as [|[[c msg]|] fs]; destruct (op d); cbn in *;
    trivial; apply R_refl.
Qed.

(** A storage call that only reads. *)
Lemma respects_query {A} (op : Db -> (Exn + A) * Db) :
  (forall d, snd (op d) = d) -> respects R (storageCall op).
Proof.
  intros Hop. apply respects_storageCall. intros d. rewrite Hop.
  apply R_refl.
Qed.

Lemma respects_createSession dto now :
  (forall u o d, op_set u = noFields ->
                 f_sessionId (op_setOnInsert u) = Some (Dto.sessionId dto) ->
                 R d (snd (findOneAndUpdate_op (Dto.sessionId dto) u o d))) ->
  respects R (Svc.createSession dto now).
Proof.
  intros Hop. unfold Svc.createSession. apply respects_tryCatch.
  - apply respects_bind; [| intros; apply respects_ret].
    apply respects_storageCall. intros d. now apply Hop.
  - intros e. apply respects_throw.
Qed.

Lemma respects_addEvent sid dto :
  (forall doc d, R d (snd (EventModel.create_op doc d))) ->
  respects R (Svc.addEvent sid dto).
Proof.
  intros Hop. unfold Svc.addEvent. apply respects_bind.
  - now apply respects_query.
  - intros [s|]; [| apply respects_throw].
    apply respects_tryCatch.
    + unfold Svc.addEvent_insert.
      apply respects_bind; [| intros; apply respects_ret].
      apply respects_storageCall. apply Hop.
    + intros e. unfold Svc.addEvent_catch.
      destruct (isDuplicateKey e); [| apply respects_throw].
      apply respects_bind; [now apply respects_query|].
      intros [ev|]; [apply respects_ret | apply respects_throw].
Qed.

Lemma respects_getSession sid p : respects R (Svc.getSession sid p).
Proof.
  unfold Svc.getSession. apply respects_bind; [now apply respects_query|].
  intros [s|]; [| apply respects_throw].
  apply respects_bind; [now apply respects_query|].
  intros evs. apply respects_bind; [now apply respects_query|].
  intros n. apply respects_ret.
Qed.

Lemma respects_completeSession sid now :
  (forall u o d, f_sessionId (op_set u) = None -> upsert o = false ->
                 f_status (op_set u) = Some COMPLETED ->
                 f_language (op_set u) = None ->
                 f_startedAt (op_set u) = None ->
                 R d (snd (findOneAndUpdate_op sid u o d))) ->
  respects R (Svc.completeSession sid now).
Proof.
  intros Hop. unfold Svc.completeSession. apply respects_bind.
  - apply respects_storageCall. intros d. now apply Hop.
  - intros [s|]; [apply respects_ret | apply respects_throw].
Qed.

End Respects.

(** C9. [getSession] is read-only: for every [sessionId], every
    [limit] and [offset] and every fault plan, the sessions and the
    events stored after the call are those stored before it, whether the
    call returns a page, fails with NotFound or fails on the storage. *)
Theorem getSession_read_only (sid : string) (p : Dto.PaginationDto) (w : World) :
  db (snd (Svc.getSession sid p w)) = db w
  /\ sessions (db (snd (Svc.getSession sid p w))) = sessions (db w)
  /\ events (db (snd (Svc.getSession sid p w))) = events (db w).
Proof.
  assert (H : respects eq (Svc.getSession sid p)).
  { apply (respects_getSession eq); [reflexivity | intros; congruence]. }
  rewrite <- (H w). repeat split.
Qed.

Section GetSession.

Import SessionModel.

Variables (d : Db) (sid : string) (p : Dto.PaginationDto).

Lemma getSession_absent :
  List.find (hasId sid) (sessions d) = None ->
  Svc.getSession sid p (quiet d) = (inl (Svc.notFound sid), quiet d).
Proof.
  intros Hs. unfold Svc.getSession, bind, findOne.
  rewrite storageCall_quiet. unfold findOne_op. cbn [fst snd].
  rewrite Hs. reflexivity.
Qed.

Lemma getSession_found (s : Session) :
  List.find (hasId sid) (sessions d) = Some s ->
  let limit := orElse (Dto.limit p) 50 in
  let offset := orElse (Dto.offset p) 0 in
  let sorted := EventModel.sortByTimestamp (eventsOfSession sid d) in
  Svc.getSession sid p (quiet d)
  = (inr {| Svc.session := s;
            Svc.events := EventModel.takeLimit limit (skipn offset sorted);
            Svc.pagination :=
              {| Svc.total := List.length (eventsOfSession sid d);
                 Svc.limit := limit;
                 Svc.offset := offset;
                 Svc.hasMore :=
                   offset + limit <? List.length (eventsOfSession sid d);
                 Svc.nextOffset :=
                   if offset + limit <? List.length (eventsOfSession sid d)
                   then Some (offset + limit) else None |} |},
     quiet d).
Proof.
  intros Hs limit offset sorted. unfold Svc.getSession, bind, findOne.
  rewrite storageCall_quiet. unfold findOne_op. cbn [fst snd].
  rewrite Hs. unfold EventModel.exec, EventModel.countDocuments.
  rewrite !storageCall_quiet. reflexivity.
Qed.

End GetSession.




(** The two pages of the 150-event session, read off the timestamps. *)
Example getSession_first_page :
  match fst (Svc.getSession "s1" (Dto.mkPaginationDto (Some 50) None)
               (quiet (Sample.busy 150))) with
  | inr page =>
      map EventSchema.timestamp (Svc.events page)
      = map Z.of_nat (seq 1 50)
      /\ Svc.pagination page = Svc.mkPagination 150 50 0 true (Some 50)
  | inl _ => False
  end.
Proof. vm_compute. split; reflexivity. Qed.

Example getSession_last_page :
  match fst (Svc.getSession "s1" (Dto.mkPaginationDto (Some 50) (Some 100))
               (quiet (Sample.busy 150))) with
  | inr page =>
      map EventSchema.timestamp (Svc.events page)
      = map Z.of_nat (seq 101 50)
      /\ Svc.pagination page = Svc.mkPagination 150 50 100 false None
  | inl _ => False
  end.
Proof. vm_compute. split; reflexivity. Qed.



Section CompleteSession.

Import SessionModel SessionFacts.

Variables (d : Db) (sid : string) (now : Date).

Lemma completeSession_absent :
  List.find (hasId sid) (sessions d) = None ->
  Svc.completeSession sid now (quiet d) = (inl (Svc.notFound sid), quiet d).
Proof.
  intros Hs. unfold Svc.completeSession, bind, findOneAndUpdate.
  rewrite storageCall_quiet. unfold findOneAndUpdate_op.
  rewrite Hs. reflexivity.
Qed.

Lemma completeSession_found (s : Session) :
  List.find (hasId sid) (sessions d) = Some s ->
  Svc.completeSession sid now (quiet d)
  = (inr (mkSession (sessionId s) COMPLETED (language s) (startedAt s)
            (Some now)),
     quiet (mkDb (replaceFirst sid
                    (mkSession (sessionId s) COMPLETED (language s)
                       (startedAt s) (Some now))
                    (sessions d))
              (events d))).
Proof.
  intros Hs. unfold Svc.completeSession, bind, findOneAndUpdate.
  rewrite storageCall_quiet. unfold findOneAndUpdate_op.
  rewrite Hs. cbn. rewrite String.eqb_refl. reflexivity.
Qed.

End CompleteSession.

Lemma find_replaceFirst_other (id id' : string) (s' : Session)
    (ss : list Session) :
  sessionId s' = id -> id' <> id ->
  List.find (SessionModel.hasId id') (SessionModel.replaceFirst id s' ss)
  = List.find (SessionModel.hasId id') ss.
Proof.
  intros Hid Hne. induction ss as [|x ss IH]; simpl; [reflexivity|].
  destruct (SessionModel.hasId id x) eqn:E; simpl.
  - apply SessionFacts.hasId_eq in E.
    assert (H1 : SessionModel.hasId id' s' = false).
    { apply not_true_is_false. rewrite SessionFacts.hasId_eq. congruence. }
    assert (H2 : SessionModel.hasId id' x = false).
    { apply not_true_is_false. rewrite SessionFacts.hasId_eq. congruence. }
    now rewrite H1, H2.
  - now rewrite IH.
Qed.

(** C4. [completeSession] is one storage call that sets
    [status = COMPLETED] and [endedAt = now] on the session it finds,
    without reading it first.  Every call on a stored session returns and
    stores the session with [status = COMPLETED] and [endedAt] equal to
    the clock reading of that call, so a later call overwrites the
    [endedAt] of an earlier one; the other properties and the other
    sessions are left alone.  The call fails with NotFound exactly when
    no session has the [sessionId], and then writes nothing. *)
Theorem completeSession_last_call_wins (d : Db) (sid : string) (now : Date) :
  (forall s,
      List.find (SessionModel.hasId sid) (sessions d) = Some s ->
      let s' := mkSession (sessionId s) COMPLETED (language s) (startedAt s)
                  (Some now) in
      let d' := mkDb (SessionModel.replaceFirst sid s' (sessions d)) (events d) in
      Svc.completeSession sid now (quiet d) = (inr s', quiet d')
      /\ List.find (SessionModel.hasId sid) (sessions d') = Some s'
      /\ (forall id, id <> sid ->
            List.find (SessionModel.hasId id) (sessions d')
            = List.find (SessionModel.hasId id) (sessions d))
      /\ (forall later,
            fst (Svc.completeSession sid later (quiet d'))
            = inr (mkSession (sessionId s) COMPLETED (language s) (startedAt s)
                     (Some later))))
  /\ (List.find (SessionModel.hasId sid) (sessions d) = None ->
      Svc.completeSession sid now (quiet d)
      = (inl (NotFoundException ("Session " ++ sid ++ " not found")%string),
         quiet d))
  /\ (fst (Svc.completeSession sid now (quiet d))
      = inl (NotFoundException ("Session " ++ sid ++ " not found")%string)
      <-> List.find (SessionModel.hasId sid) (sessions d) = None)
  /\ (forall f fs,
      faults (snd (Svc.completeSession sid now (mkWorld d (f :: fs)))) = fs).
Proof.
  split; [| split; [| split]].
  - intros s Hs s' d'.
    assert (Hid : sessionId s' = sid)
      by (apply SessionFacts.find_hasId in Hs; apply Hs).
    assert (Hf' : List.find (SessionModel.hasId sid) (sessions d') = Some s')
      by exact (SessionFacts.find_replaceFirst sid s s' (sessions d) Hs Hid).
    split; [exact (completeSession_found d sid now s Hs)|].
    split; [exact Hf'|]. split.
    + intros id Hne. now apply find_replaceFirst_other.
    + intros later. now rewrite (completeSession_found d' sid later s' Hf').
  - intros Hs. exact (completeSession_absent d sid now Hs).
  - split.
    + destruct (List.find (SessionModel.hasId sid) (sessions d)) as [s|] eqn:Hs;
        [| reflexivity].
      rewrite (completeSession_found d sid now s Hs). discriminate.
    + intros Hs. now rewrite (completeSession_absent d sid now Hs).
  - intros f fs.
    unfold Svc.completeSession, bind, SessionModel.findOneAndUpdate, storageCall.
    cbn [faults db].
    destruct f as [[c msg]|]; [reflexivity|].
    destruct (SessionModel.findOneAndUpdate_op _ _ _ d) as [[e|[s|]] d1];
      reflexivity.
Qed.

Lemma completeSession_last_call_wins_witness :
  Svc.completeSession "s2" 2500 (quiet Sample.store)
  = (inr (mkSession "s2" COMPLETED "fr" 1500 (Some 2500%Z)),
     quiet (mkDb [Sample.s1; mkSession "s2" COMPLETED "fr" 1500 (Some 2500%Z)]
              (events Sample.store)))
  /\ Svc.completeSession "s9" 2500 (quiet Sample.store)
     = (inl (NotFoundException "Session s9 not found"), quiet Sample.store).
Proof.
  split.
  - exact (proj1 (proj1 (completeSession_last_call_wins Sample.store "s2" 2500)
                    Sample.s2 eq_refl)).
  - exact (proj1 (proj2 (completeSession_last_call_wins Sample.store "s9" 2500))
             eq_refl).
Defined.

(** C3.  The code at the failing input.  When the upsert of
    [createSession] loses the race on the unique index and the storage
    call throws the duplicate-key error (code 11000), [createSession]
    throws the internal error "Failed to create session", answered with
    status 500, although the winning record is stored: the [catch] block
    does not look at the code of the error and makes no further storage
    call, so the record is not read back.  Nothing is written. *)
Theorem createSession_duplicate_key_surfaces :
  Svc.createSession (Dto.mkCreateSessionDto "s1" "en") 1200
    (mkWorld Sample.store [Some (11000%Z, "E11000 duplicate key error")])
  = (inl (InternalServerErrorException "Failed to create session"),
     quiet Sample.store)
  /\ fst (ConversationsController.createSession
            (Dto.mkCreateSessionDto "s1" "en") 1200
            (mkWorld Sample.store [Some (11000%Z, "E11000 duplicate key error")]))
     = inr (500%Z, inl (InternalServerErrorException "Failed to create session"))
  /\ List.find (SessionModel.hasId "s1") (sessions Sample.store)
     = Some Sample.s1.
Proof. repeat split. Qed.

(** ** The session lifecycle *)

Section Lifecycle.

Import SessionModel SessionFacts.

Lemma lifecycle_refl (s : Session) : lifecycle s s.
Proof. repeat split; trivial. Qed.

Lemma lifecycle_trans (s1 s2 s3 : Session) :
  lifecycle s1 s2 -> lifecycle s2 s3 -> lifecycle s1 s3.
Proof.
  intros (Ha & Hb & Hc & Hd) (Ha' & Hb' & Hc' & Hd').
  repeat split; try congruence. auto.
Qed.

Lemma evolves_refl (ss : list Session) : evolves ss ss.
Proof.
  split; [trivial|]. intros s Hs. exists s. split; [exact Hs|].
  apply lifecycle_refl.
Qed.

Lemma evolves_trans (ss1 ss2 ss3 : list Session) :
  evolves ss1 ss2 -> evolves ss2 ss3 -> evolves ss1 ss3.
Proof.
  intros [Hn1 Hl1] [Hn2 Hl2]. split; [auto|].
  intros s Hs. destruct (Hl1 s Hs) as (s2 & Hin2 & H12).
  destruct (Hl2 s2 Hin2) as (s3 & Hin3 & H23).
  exists s3. split; [exact Hin3|]. eapply lifecycle_trans; eassumption.
Qed.

Lemma existsb_hasId_ids (id : string) (ss : list Session) :
  existsb (hasId id) ss = false -> ~ In id (map sessionId ss).
Proof.
  intros He Hin. apply in_map_iff in Hin. destruct Hin as (x & Hx & Hin).
  assert (Ht : existsb (hasId id) ss = true).
  { apply existsb_exists. exists x. split; [exact Hin|]. now apply hasId_eq. }
  congruence.
Qed.

(** Inserting a record under an id that no record has. *)
Lemma evolves_insert (ss : list Session) (doc : Session) :
  existsb (hasId (sessionId doc)) ss = false ->
  evolves ss (ss ++ [doc]).
Proof.
  intros He. split.
  - intros Hn. rewrite map_app. cbn [map].
    eapply Permutation_NoDup; [apply Permutation_cons_append|].
    constructor; [now apply existsb_hasId_ids | exact Hn].
  - intros s Hs. exists s. split; [apply in_or_app; now left|].
    apply lifecycle_refl.
Qed.

Lemma replaceFirst_In (id : string) (s' x : Session) (ss : list Session) :
  In x ss ->
  In x (replaceFirst id s' ss)
  \/ (List.find (hasId id) ss = Some x /\ In s' (replaceFirst id s' ss)).
Proof.
  induction ss as [|y ss IH]; simpl; [tauto|].
  destruct (hasId id y) eqn:E; intros [Heq | Hin]; simpl.
  - right. subst y. auto.
  - left. now right.
  - left. now left.
  - destruct (IH Hin) as [H | [Hf Hs']]; [left; now right|].
    right. split; [exact Hf | now right].
Qed.

(** Overwriting the record found under [id] by a successor of it. *)
Lemma evolves_replace (id : string) (s s' : Session) (ss : list Session) :
  List.find (hasId id) ss = Some s -> lifecycle s s' ->
  evolves ss (replaceFirst id s' ss).
Proof.
  intros Hf Hl.
  assert (Hid : sessionId s' = id).
  { destruct Hl as [Hl _]. rewrite Hl. now apply find_hasId in Hf. }
  split.
  - now rewrite (replaceFirst_ids id s' ss Hid).
  - intros x Hx. destruct (replaceFirst_In id s' x ss Hx) as [H | [Hfx Hin]].
    + exists x. split; [exact H | apply lifecycle_refl].
    + exists s'. split; [exact Hin|].
      rewrite Hf in Hfx. now injection Hfx as ->.
Qed.

Lemma lifecycleStep_refl (d : Db) : lifecycleStep d d.
Proof. apply evolves_refl. Qed.

Lemma lifecycleStep_trans (d1 d2 d3 : Db) :
  lifecycleStep d1 d2 -> lifecycleStep d2 d3 -> lifecycleStep d1 d3.
Proof. apply evolves_trans. Qed.

(** An upsert that sets nothing on a record it finds and inserts under
    the id it looked for. *)
Lemma lifecycleStep_upsert (id : string) (u : UpdateQuery)
    (o : QueryOptions) (d : Db) :
  op_set u = noFields ->
  f_sessionId (op_setOnInsert u) = Some id ->
  lifecycleStep d (snd (findOneAndUpdate_op id u o d)).
Proof.
  intros Hu Hid. unfold lifecycleStep.
  destruct (List.find (hasId id) (sessions d)) as [s|] eqn:Hf.
  - rewrite findOneAndUpdate_noop with (s := s) by trivial.
    apply evolves_refl.
  - unfold findOneAndUpdate_op. rewrite Hf.
    destruct (upsert o); [| apply evolves_refl].
    destruct (newDocument id u) as [doc|] eqn:Hdoc; [| apply evolves_refl].
    assert (Hdid : sessionId doc = id).
    { unfold newDocument in Hdoc. cbv zeta in Hdoc. rewrite Hid in Hdoc.
      repeat match type of Hdoc with
             | match ?x with _ => _ end = _ => destruct x; try discriminate
             end.
      injection Hdoc as <-. reflexivity. }
    rewrite Hdid, (find_none_existsb _ _ Hf). cbn [snd sessions].
    apply evolves_insert. rewrite Hdid. now apply find_none_existsb.
Qed.

(** An update that sets [status] to [COMPLETED] and leaves [sessionId],
    [language] and [startedAt] alone. *)
Lemma lifecycleStep_complete (id : string) (u : UpdateQuery)
    (o : QueryOptions) (d : Db) :
  f_sessionId (op_set u) = None -> upsert o = false ->
  f_status (op_set u) = Some COMPLETED ->
  f_language (op_set u) = None ->
  f_startedAt (op_set u) = None ->
  lifecycleStep d (snd (findOneAndUpdate_op id u o d)).
Proof.
  intros Hid Ho Hst Hlang Hstart. unfold lifecycleStep, findOneAndUpdate_op.
  destruct (List.find (hasId id) (sessions d)) as [s|] eqn:Hf.
  - assert (Hl : lifecycle s (applyFields (op_set u) s)).
    { unfold lifecycle, applyFields. cbn.
      rewrite Hid, Hst, Hlang, Hstart. repeat split; reflexivity. }
    cbv zeta. rewrite (proj1 Hl), String.eqb_refl. cbn [orb snd sessions].
    now apply evolves_replace with (s := s).
  - rewrite Ho. apply evolves_refl.
Qed.

Lemma evolves_handle (r : Request) (w : World) :
  evolves (sessions (db w)) (sessions (db (handle r w))).
Proof.
  change (lifecycleStep (db w) (db (handle r w))).
  destruct r; cbn [handle].
  - apply (respects_createSession _ lifecycleStep_refl lifecycleStep_trans).
    intros. now apply lifecycleStep_upsert.
  - apply (respects_addEvent _ lifecycleStep_refl lifecycleStep_trans).
    intros doc d. unfold EventModel.create_op, lifecycleStep.
    destruct (existsb _ _); apply evolves_refl.
  - apply (respects_getSession _ lifecycleStep_refl lifecycleStep_trans).
  - apply (respects_completeSession _ lifecycleStep_refl lifecycleStep_trans).
    intros. now apply lifecycleStep_complete.
Qed.

Lemma evolves_handleAll (rs : list Request) (w : World) :
  evolves (sessions (db w)) (sessions (db (handleAll rs w))).
Proof.
  revert w. induction rs as [|r rs IH]; intros w; cbn.
  - apply evolves_refl.
  - eapply evolves_trans; [apply evolves_handle | apply IH].
Qed.

End Lifecycle.

(** C7. The session lifecycle holds along every sequence of
    [createSession], [addEvent], [getSession] and [completeSession]
    calls, under every fault plan.  If no two stored sessions share a
    [sessionId] before, none do after, so a [sessionId] never has more
    than one record; and every session stored before is still stored
    after under the same [sessionId], with the same [startedAt] and the
    same [language], and with [status = COMPLETED] if it was [COMPLETED]
    before: [status] goes from [ACTIVE] to [COMPLETED] and never back. *)
Theorem session_lifecycle_invariant (rs : list Request) (w : World) :
  NoDup (sessionIds (db w)) ->
  NoDup (sessionIds (db (handleAll rs w)))
  /\ (forall s,
      In s (sessions (db w)) ->
      exists s',
        In s' (sessions (db (handleAll rs w)))
        /\ sessionId s' = sessionId s
        /\ startedAt s' = startedAt s
        /\ language s' = language s
        /\ (status s = COMPLETED -> status s' = COMPLETED)
        /\ (status s' = ACTIVE -> status s = ACTIVE)).
Proof.
  intros Hn. destruct (evolves_handleAll rs w) as [Hnd Hl].
  split; [exact (Hnd Hn)|].
  intros s Hs. destruct (Hl s Hs) as (s' & Hin & Ha & Hb & Hc & Hd).
  exists s'. repeat split; trivial.
  intros Hact. destruct (status s) eqn:E; [reflexivity|].
  rewrite Hd in Hact by reflexivity. discriminate.
Qed.

Lemma session_lifecycle_invariant_witness :
  NoDup (sessionIds (db (handleAll Sample.requests
                           (mkWorld Sample.store Sample.plan)))).
Proof.
  apply (session_lifecycle_invariant Sample.requests
           (mkWorld Sample.store Sample.plan)).
  repeat constructor; cbn; intros H;
    repeat (destruct H as [H|H]; [discriminate H|]); exact H.
Defined.

(** Where the sample traffic leaves the sample sessions. *)
Example sample_traffic :
  sessions (db (handleAll Sample.requests (mkWorld Sample.store Sample.plan)))
  = [ mkSession "s1" COMPLETED "en" 1000 (Some 9000%Z);
      Sample.s2;
      mkSession "s3" ACTIVE "es" 8000 None ].
Proof. reflexivity. Qed.

(** From an empty store on, no [sessionId] ever has two records. *)
Corollary sessionIds_unique (rs : list Request) (fs : list (option Fault)) :
  NoDup (sessionIds (db (handleAll rs (mkWorld Sample.empty fs)))).
Proof.
  apply (proj1 (evolves_handleAll rs (mkWorld Sample.empty fs))).
  constructor.
Qed.

(** ** Events are never removed *)

Section EventsGrow.

Import EventModel.

Lemma eventsGrow_refl (d : Db) : eventsGrow d d.
Proof. exists []. now rewrite app_nil_r. Qed.

Lemma eventsGrow_trans (d1 d2 d3 : Db) :
  eventsGrow d1 d2 -> eventsGrow d2 d3 -> eventsGrow d1 d3.
Proof.
  intros [l1 H1] [l2 H2]. exists (l1 ++ l2).
  now rewrite H2, H1, app_assoc.
Qed.

Lemma findOneAndUpdate_events id u o (d : Db) :
  events (snd (SessionModel.findOneAndUpdate_op id u o d)) = events d.
Proof.
  unfold SessionModel.findOneAndUpdate_op.
  repeat match goal with
         | |- context [match ?x with _ => _ end] => destruct x
         end; reflexivity.
Qed.

Lemma eventsGrow_handle (r : Request) (w : World) :
  eventsGrow (db w) (db (handle r w)).
Proof.
  destruct r; cbn [handle].
  - apply (respects_createSession _ eventsGrow_refl eventsGrow_trans).
    intros. exists []. now rewrite findOneAndUpdate_events, app_nil_r.
  - apply (respects_addEvent _ eventsGrow_refl eventsGrow_trans).
    intros doc d. unfold create_op.
    destruct (existsb _ _); [apply eventsGrow_refl|].
    now exists [stored doc].
  - apply (respects_getSession _ eventsGrow_refl eventsGrow_trans).
  - apply (respects_completeSession _ eventsGrow_refl eventsGrow_trans).
    intros. exists []. now rewrite findOneAndUpdate_events, app_nil_r.
Qed.

Lemma eventsGrow_handleAll (rs : list Request) (w : World) :
  eventsGrow (db w) (db (handleAll rs w)).
Proof.
  revert w. induction rs as [|r rs IH]; intros w; cbn.
  - apply eventsGrow_refl.
  - eapply eventsGrow_trans; [apply eventsGrow_handle | apply IH].
Qed.

Variables (sid : string) (dto : Dto.CreateEventDto).

(** A duplicate-key rejection of the insert comes from the index: an
    event with the key is stored. *)
Lemma addEvent_insert_rejected (w w1 : World) (error : Exn) :
  noDuplicateKeyFault (faults w) ->
  Svc.addEvent_insert sid dto w = (inl error, w1) ->
  isDuplicateKey error = true ->
  exists e0,
    List.find (hasKey sid (Dto.eventId dto)) (events (db w1)) = Some e0.
Proof.
  intros Hfs Hrun Hdup. destruct w as [d fs].
  unfold Svc.addEvent_insert, bind, create, storageCall, create_op in Hrun.
  cbn [faults db EventSchema.sessionId EventSchema.eventId] in *.
  destruct (existsb (hasKey sid (Dto.eventId dto)) (events d)) eqn:He.
  - apply existsb_true_find in He. destruct He as [e0 He].
    exists e0.
    destruct fs as [|[[c msg]|] fs]; cbn in Hrun;
      injection Hrun as <- <-; trivial.
  - destruct fs as [|[[c msg]|] fs]; cbn in Hrun; try discriminate.
    injection Hrun as <- <-.
    apply Forall_inv in Hfs. cbn in Hdup. apply Z.eqb_eq in Hdup.
    contradiction.
Qed.

(** With the event stored, the [catch] block does not lose it. *)
Lemma addEvent_catch_finds (w : World) (error : Exn) (e0 : EventSchema.Event) :
  List.find (hasKey sid (Dto.eventId dto)) (events (db w)) = Some e0 ->
  fst (Svc.addEvent_catch sid dto error w)
  <> inl (InternalServerErrorException
            "Duplicate key error but event not found").
Proof.
  intros He. destruct w as [d fs]. unfold Svc.addEvent_catch.
  destruct (isDuplicateKey error); [| discriminate].
  unfold bind, findOne, storageCall, findOne_op. cbn [faults db] in *.
  destruct fs as [|[[c msg]|] fs]; try rewrite He; discriminate.
Qed.

Lemma addEvent_try_finds (w : World) :
  noDuplicateKeyFault (faults w) ->
  fst (tryCatch (Svc.addEvent_insert sid dto) (Svc.addEvent_catch sid dto) w)
  <> inl (InternalServerErrorException
            "Duplicate key error but event not found").
Proof.
  intros Hfs. unfold tryCatch.
  destruct (Svc.addEvent_insert sid dto w) as [[error|e] w1] eqn:Hrun;
    [| discriminate].
  destruct (isDuplicateKey error) eqn:Hdup.
  - destruct (addEvent_insert_rejected w w1 error Hfs Hrun Hdup) as [e0 He].
    now apply addEvent_catch_finds with (e0 := e0).
  - unfold Svc.addEvent_catch. rewrite Hdup. discriminate.
Qed.

End EventsGrow.

(** C10. [addEvent] never reports "Duplicate key error but event not
    found".  The engine raises the duplicate-key code on the insert only
    when the [(sessionId, eventId)] index rejects it; then an event with
    that key is stored, and since no request removes an event it is
    still the one found by the re-read, whatever requests are served
    between the rejected insert and the re-read. *)
Theorem addEvent_duplicate_is_found (sid : string) (dto : Dto.CreateEventDto)
    (w : World) :
  noDuplicateKeyFault (faults w) ->
  fst (Svc.addEvent sid dto w)
  <> inl (InternalServerErrorException "Duplicate key error but event not found")
  /\ (forall error w1,
         Svc.addEvent_insert sid dto w = (inl error, w1) ->
         isDuplicateKey error = true ->
         exists e0,
           List.find (EventModel.hasKey sid (Dto.eventId dto)) (events (db w1))
           = Some e0
           /\ forall rs,
               List.find (EventModel.hasKey sid (Dto.eventId dto))
                 (events (db (handleAll rs w1))) = Some e0
               /\ fst (Svc.addEvent_catch sid dto error (handleAll rs w1))
                  <> inl (InternalServerErrorException
                            "Duplicate key error but event not found")).
Proof.
  intros Hfs. split.
  - destruct w as [d fs]. cbn [faults] in Hfs.
    unfold Svc.addEvent, bind, SessionModel.findOne, storageCall,
      SessionModel.findOne_op. cbn [faults db].
    destruct fs as [|[[c msg]|] fs]; try discriminate;
      (destruct (List.find (SessionModel.hasId sid) (sessions d));
       [| discriminate]).
    + now apply addEvent_try_finds.
    + apply addEvent_try_finds. now apply Forall_inv_tail in Hfs.
  - intros error w1 Hrun Hdup.
    destruct (addEvent_insert_rejected sid dto w w1 error Hfs Hrun Hdup)
      as [e0 He].
    exists e0. split; [exact He|]. intros rs.
    assert (He' : List.find (EventModel.hasKey sid (Dto.eventId dto))
                    (events (db (handleAll rs w1))) = Some e0).
    { destruct (eventsGrow_handleAll rs w1) as [added ->].
      now apply find_app_some. }
    split; [exact He'|].
    now apply addEvent_catch_finds with (e0 := e0).
Qed.

Lemma addEvent_duplicate_is_found_witness :
  fst (Svc.addEvent "s1" Sample.retry (mkWorld Sample.store [None; None; None]))
  <> inl (InternalServerErrorException "Duplicate key error but event not found").
Proof.
  apply (addEvent_duplicate_is_found "s1" Sample.retry
           (mkWorld Sample.store [None; None; None])).
  repeat constructor.
Defined.


(** * Further properties of the service *)

(** ** What one request does to the database *)

Section Effects.

Import SessionModel.

(** [createSession] writes nothing or appends the new session, and the
    latter only when no session has the id. *)
Lemma createSession_db (dto : Dto.CreateSessionDto) (now : Date) (w : World) :
  db (snd (Svc.createSession dto now w)) = db w
  \/ (List.find (hasId (Dto.sessionId dto)) (sessions (db w)) = None
      /\ db (snd (Svc.createSession dto now w))
         = mkDb (sessions (db w) ++ [freshSession dto now]) (events (db w))).
Proof.
  destruct w as [d fs].
  destruct (List.find (hasId (Dto.sessionId dto)) (sessions d)) as [s|] eqn:Hf.
  - left. unfold Svc.createSession, tryCatch, bind, findOneAndUpdate,
      storageCall. cbn [faults db].
    destruct fs as [|[[c msg]|] fs]; try reflexivity;
      rewrite findOneAndUpdate_noop with (s := s) by trivial; reflexivity.
  - unfold Svc.createSession, tryCatch, bind, findOneAndUpdate, storageCall,
      findOneAndUpdate_op. cbn [faults db]. rewrite Hf. cbn.
    rewrite (find_none_existsb _ _ Hf).
    destruct fs as [|[[c msg]|] fs]; cbn; auto.
Qed.

(** [addEvent] writes nothing or appends the event of the request, and
    the latter only when the session is stored and the key is free. *)
Lemma addEvent_db (sid : string) (dto : Dto.CreateEventDto) (w : World) :
  db (snd (Svc.addEvent sid dto w)) = db w
  \/ ((exists s, List.find (hasId sid) (sessions (db w)) = Some s)
      /\ List.find (EventModel.hasKey sid (Dto.eventId dto)) (events (db w))
         = None
      /\ db (snd (Svc.addEvent sid dto w))
         = mkDb (sessions (db w))
             (events (db w) ++ [eventOf sid (storedDto dto)])).
Proof.
  destruct w as [d fs].
  unfold Svc.addEvent, bind, SessionModel.findOne, storageCall, findOne_op.
  cbn [faults db].
  assert (Hstep : forall fs',
    db (snd (tryCatch (Svc.addEvent_insert sid dto)
               (Svc.addEvent_catch sid dto) (mkWorld d fs'))) = d
    \/ (List.find (EventModel.hasKey sid (Dto.eventId dto)) (events d) = None
        /\ db (snd (tryCatch (Svc.addEvent_insert sid dto)
                      (Svc.addEvent_catch sid dto) (mkWorld d fs')))
           = mkDb (sessions d) (events d ++ [eventOf sid (storedDto dto)]))).
  { intros fs'.
    unfold tryCatch, Svc.addEvent_insert, Svc.addEvent_catch, bind,
      EventModel.create, EventModel.findOne, storageCall,
      EventModel.create_op, EventModel.findOne_op.
    cbn [faults db EventSchema.sessionId EventSchema.eventId].
    destruct (existsb (EventModel.hasKey sid (Dto.eventId dto)) (events d))
      eqn:He.
    - left.
      destruct fs' as [|[[c msg]|] fs']; cbn;
        try (destruct (Z.eqb c 11000)); cbn;
        try (destruct fs' as [|[[c' msg']|] fs']); cbn;
        try (destruct (List.find _ (events d))); reflexivity.
    - assert (Hn : List.find (EventModel.hasKey sid (Dto.eventId dto))
                     (events d) = None).
      { destruct (List.find _ (events d)) eqn:Hfind; [| reflexivity].
        apply find_some_existsb in Hfind. congruence. }
      destruct fs' as [|[[c msg]|] fs']; cbn.
      + right. split; [exact Hn | reflexivity].
      + left. destruct (Z.eqb c 11000); cbn; [| reflexivity].
        destruct fs' as [|[[c' msg']|] fs']; cbn; rewrite ?Hn; reflexivity.
      + right. split; [exact Hn | reflexivity]. }
  destruct fs as [|[[c msg]|] fs]; cbn [fst snd];
    try (left; reflexivity);
    (destruct (List.find (hasId sid) (sessions d)) as [s|] eqn:Hs;
     [| left; reflexivity]).
  - destruct (Hstep []) as [H | [Hn H]]; [left; exact H|].
    right. split; [now exists s|]. split; assumption.
  - destruct (Hstep fs) as [H | [Hn H]]; [left; exact H|].
    right. split; [now exists s|]. split; assumption.
Qed.

(** [completeSession] writes nothing or writes the completed record over
    the session it found. *)
Lemma completeSession_db (sid : string) (now : Date) (w : World) :
  db (snd (Svc.completeSession sid now w)) = db w
  \/ (exists s,
        List.find (hasId sid) (sessions (db w)) = Some s
        /\ db (snd (Svc.completeSession sid now w))
           = mkDb (replaceFirst sid (completedAt s now) (sessions (db w)))
               (events (db w))).
Proof.
  destruct w as [d fs].
  unfold Svc.completeSession, bind, findOneAndUpdate, storageCall,
    findOneAndUpdate_op. cbn [faults db].
  destruct (List.find (hasId sid) (sessions d)) as [s|] eqn:Hf.
  - cbn. rewrite String.eqb_refl. cbn.
    destruct fs as [|[[c msg]|] fs]; cbn;
      try (left; reflexivity); right; exists s; split; reflexivity.
  - left. destruct fs as [|[[c msg]|] fs]; reflexivity.
Qed.

Lemma getSession_db (sid : string) (p : Dto.PaginationDto) (w : World) :
  db (snd (Svc.getSession sid p w)) = db w.
Proof.
  symmetry. apply (respects_getSession eq); [reflexivity | intros; congruence].
Qed.

End Effects.

(** ** Every request is one of four writes *)

(** X1. Whatever the request and the fault plan, the database after it
    is the database before it, or that with one session appended under
    an id that was free, or with one event appended for a stored session
    under a key that was free, or with one stored session overwritten by
    its completed record.  Nothing is ever deleted and no stored event
    is ever rewritten. *)
Theorem request_effect (r : Request) (w : World) :
  Effect (db w) (db (handle r w)).
Proof.
  destruct r as [dto now | sid dto | sid p | sid now]; cbn [handle].
  - destruct (createSession_db dto now w) as [-> | [Hf ->]];
      [constructor | now constructor].
  - destruct (addEvent_db sid dto w) as [-> | ([s Hs] & Hk & ->)];
      [constructor | now apply EventAdded with (s := s)].
  - rewrite getSession_db. constructor.
  - destruct (completeSession_db sid now w) as [-> | (s & Hs & ->)];
      [constructor | now constructor].
Qed.

Section Invariants.

Import SessionModel SessionFacts.

Variable I : Db -> Prop.
Hypothesis I_effect : forall d d', Effect d d' -> I d -> I d'.

(** What every write keeps, every run of requests keeps. *)
Lemma invariant_handleAll (rs : list Request) (w : World) :
  I (db w) -> I (db (handleAll rs w)).
Proof.
  revert w. induction rs as [|r rs IH]; intros w Hw; cbn; [exact Hw|].
  apply IH. eapply I_effect; [| exact Hw].
  destruct r as [dto now | sid dto | sid p | sid now]; cbn [handle].
  - destruct (createSession_db dto now w) as [-> | [Hf ->]];
      [constructor | now constructor].
  - destruct (addEvent_db sid dto w) as [-> | ([s Hs] & Hk & ->)];
      [constructor | now apply EventAdded with (s := s)].
  - rewrite getSession_db. constructor.
  - destruct (completeSession_db sid now w) as [-> | (s & Hs & ->)];
      [constructor | now constructor].
Qed.

End Invariants.

Lemma hasKey_free_keys (sid eid : string) (es : list EventSchema.Event) :
  List.find (EventModel.hasKey sid eid) es = None ->
  ~ In (sid, eid)
      (map (fun e => (EventSchema.sessionId e, EventSchema.eventId e)) es).
Proof.
  intros Hf Hin. apply in_map_iff in Hin. destruct Hin as (e & He & Hin).
  injection He as Hs He.
  apply (find_none _ _ Hf) in Hin.
  assert (Ht : EventModel.hasKey sid eid e = true)
    by (apply EventFacts.hasKey_eq; now split).
  congruence.
Qed.

(** X2. The compound unique index holds along every run: if no two
    stored events share [(sessionId, eventId)] before a sequence of
    requests, none do after it, under every fault plan. *)
Theorem event_keys_unique (rs : list Request) (w : World) :
  NoDup (eventKeys (db w)) -> NoDup (eventKeys (db (handleAll rs w))).
Proof.
  apply invariant_handleAll with (I := fun d => NoDup (eventKeys d)).
  intros d d' He Hn. destruct He as [| dto now Hf | sid dto s Hs Hk | sid now s Hs];
    trivial.
  unfold eventKeys. cbn [events]. rewrite map_app. cbn [map].
  eapply Permutation_NoDup; [apply Permutation_cons_append|].
  constructor; [| exact Hn].
  now apply hasKey_free_keys.
Qed.

Lemma event_keys_unique_witness :
  NoDup (eventKeys (db (handleAll Sample.requests
                          (mkWorld Sample.store Sample.plan)))).
Proof.
  apply (event_keys_unique Sample.requests (mkWorld Sample.store Sample.plan)).
  repeat constructor; cbn; intros H;
    repeat (destruct H as [H|H]; [discriminate H|]); exact H.
Defined.

(** X3. Referential integrity holds along every run: if every stored
    event names a stored session before a sequence of requests, so it
    does after it.  [addEvent] checks the session first and no request
    removes a session or changes its id. *)
Theorem events_owned (rs : list Request) (w : World) :
  eventsOwned (db w) -> eventsOwned (db (handleAll rs w)).
Proof.
  apply invariant_handleAll with (I := eventsOwned).
  intros d d' He Ho. unfold eventsOwned, sessionIds in *.
  destruct He as [| dto now Hf | sid dto s Hs Hk | sid now s Hs];
    cbn [events sessions]; trivial.
  - intros e Hin. rewrite map_app. apply in_or_app. left. now apply Ho.
  - intros e Hin. apply in_app_or in Hin. destruct Hin as [Hin | [<- | []]].
    + now apply Ho.
    + cbn. apply SessionFacts.find_hasId in Hs. destruct Hs as [Hin <-].
      now apply in_map.
  - intros e Hin. rewrite SessionFacts.replaceFirst_ids; [now apply Ho|].
    now apply SessionFacts.find_hasId in Hs.
Qed.

Lemma events_owned_witness :
  eventsOwned (db (handleAll Sample.requests
                     (mkWorld Sample.store Sample.plan))).
Proof.
  apply (events_owned Sample.requests (mkWorld Sample.store Sample.plan)).
  intros e Hin. cbn in Hin.
  repeat (destruct Hin as [<- | Hin]; [cbn; auto|]). destruct Hin.
Defined.

Lemma Forall_replaceFirst (P : Session -> Prop) (id : string) (s' : Session)
    (ss : list Session) :
  Forall P ss -> P s' -> Forall P (SessionModel.replaceFirst id s' ss).
Proof.
  intros Hss Hs'. induction Hss as [|x ss Hx Hss IH]; simpl; [constructor|].
  destruct (SessionModel.hasId id x); constructor; assumption.
Qed.

(** X4. [endedAt] follows [status] along every run: if every stored
    session is either active without [endedAt] or completed with one
    before a sequence of requests, the same holds after it. *)
Theorem sessions_well_ended (rs : list Request) (w : World) :
  Forall wellEnded (sessions (db w)) ->
  Forall wellEnded (sessions (db (handleAll rs w))).
Proof.
  apply invariant_handleAll with (I := fun d => Forall wellEnded (sessions d)).
  intros d d' He Hw.
  destruct He as [| dto now Hf | sid dto s Hs Hk | sid now s Hs];
    cbn [sessions]; trivial.
  - apply Forall_app. split; [exact Hw|]. repeat constructor.
  - apply Forall_replaceFirst; [exact Hw | exact I].
Qed.

Lemma sessions_well_ended_witness :
  Forall wellEnded (sessions (db (handleAll Sample.requests
                                    (mkWorld Sample.store Sample.plan)))).
Proof.
  apply (sessions_well_ended Sample.requests
           (mkWorld Sample.store Sample.plan)).
  repeat constructor.
Defined.

(** ** What each operation leaves alone *)

(** X5. Under every fault plan [createSession] leaves the events alone,
    [addEvent] leaves the sessions alone, and [completeSession] leaves
    the events alone and neither adds nor removes a session: the stored
    session ids after it are those before it, in the same order. *)
Theorem operation_frames (w : World) :
  (forall dto now,
      events (db (snd (Svc.createSession dto now w))) = events (db w))
  /\ (forall sid dto,
      sessions (db (snd (Svc.addEvent sid dto w))) = sessions (db w))
  /\ (forall sid now,
      events (db (snd (Svc.completeSession sid now w))) = events (db w)
      /\ sessionIds (db (snd (Svc.completeSession sid now w)))
         = sessionIds (db w)).
Proof.
  split; [| split].
  - intros dto now.
    destruct (createSession_db dto now w) as [-> | [_ ->]]; reflexivity.
  - intros sid dto.
    destruct (addEvent_db sid dto w) as [-> | (_ & _ & ->)]; reflexivity.
  - intros sid now.
    destruct (completeSession_db sid now w) as [-> | (s & Hs & ->)];
      [split; reflexivity|].
    split; [reflexivity|]. unfold sessionIds. cbn [sessions].
    apply SessionFacts.replaceFirst_ids.
    now apply SessionFacts.find_hasId in Hs.
Qed.

(** X6. Only [completeSession] changes a stored session.  Along a run
    of requests with no [completeSession] among them, under every fault
    plan, the sessions stored before are all still stored, unchanged and
    in place, with the sessions created since after them. *)
Theorem sessions_append_only (rs : list Request) (w : World) :
  forallb (fun r => negb (isCompleteSession r)) rs = true ->
  exists added,
    sessions (db (handleAll rs w)) = sessions (db w) ++ added.
Proof.
  revert w. induction rs as [|r rs IH]; intros w Hrs.
  - exists []. cbn. now rewrite app_nil_r.
  - change (handleAll (r :: rs) w) with (handleAll rs (handle r w)).
    cbn in Hrs. apply andb_true_iff in Hrs. destruct Hrs as [Hr Hrs].
    destruct (IH (handle r w) Hrs) as [added Hadd]. rewrite Hadd.
    assert (H1 : exists a, sessions (db (handle r w)) = sessions (db w) ++ a).
    { destruct r as [dto now | sid dto | sid p | sid now]; cbn [handle];
        try discriminate Hr.
      - destruct (createSession_db dto now w) as [-> | [_ ->]];
          [exists []; now rewrite app_nil_r | now eexists].
      - destruct (addEvent_db sid dto w) as [-> | (_ & _ & ->)];
          exists []; now rewrite app_nil_r.
      - rewrite getSession_db. exists []. now rewrite app_nil_r. }
    destruct H1 as [a ->]. exists (a ++ added). now rewrite app_assoc.
Qed.

Lemma sessions_append_only_witness :
  exists added,
    sessions (db (handleAll
                    [ CreateSession (Dto.mkCreateSessionDto "s1" "de") 5000;
                      AddEvent "s1" Sample.retry;
                      CreateSession (Dto.mkCreateSessionDto "s3" "es") 8000 ]
                    (quiet Sample.store)))
    = sessions (db (quiet Sample.store)) ++ added.
Proof.
  apply (sessions_append_only
           [ CreateSession (Dto.mkCreateSessionDto "s1" "de") 5000;
             AddEvent "s1" Sample.retry;
             CreateSession (Dto.mkCreateSessionDto "s3" "es") 8000 ]
           (quiet Sample.store)).
  reflexivity.
Defined.

(** ** Storage failures *)

(** X7. The two storage failures [addEvent] can meet before it has
    written.  A failure of the session lookup is outside the [try]: the
    storage error reaches the caller as it is.  A failure of the insert
    with a code other than 11000 is caught and becomes the internal
    error "Failed to add event".  Either way nothing is written. *)
Theorem addEvent_storage_failures (d : Db) (sid : string)
    (dto : Dto.CreateEventDto) (c : Z) (msg : string)
    (fs : list (option Fault)) :
  Svc.addEvent sid dto (mkWorld d (Some (c, msg) :: fs))
  = (inl (MongoServerError c msg), mkWorld d fs)
  /\ (forall s,
      List.find (SessionModel.hasId sid) (sessions d) = Some s ->
      c <> 11000%Z ->
      Svc.addEvent sid dto (mkWorld d (None :: Some (c, msg) :: fs))
      = (inl (InternalServerErrorException "Failed to add event"),
         mkWorld d fs)).
Proof.
  split; [reflexivity|]. intros s Hs Hc.
  unfold Svc.addEvent, bind, SessionModel.findOne, storageCall,
    SessionModel.findOne_op. cbn [faults db]. rewrite Hs.
  unfold tryCatch, Svc.addEvent_insert, bind, EventModel.create, storageCall.
  cbn [faults db]. unfold Svc.addEvent_catch, isDuplicateKey. cbn [errorCode].
  apply Z.eqb_neq in Hc. rewrite Hc. reflexivity.
Qed.

Lemma addEvent_storage_failures_witness :
  Svc.addEvent "s2" Sample2.fresh
    (mkWorld Sample2.store [None; Some Sample2.timeout])
  = (inl (InternalServerErrorException "Failed to add event"),
     quiet Sample2.store).
Proof.
  apply (proj2 (addEvent_storage_failures Sample2.store "s2" Sample2.fresh
                  89%Z "network timeout" []) Sample.s2 eq_refl).
  discriminate.
Defined.

(** X8. The last branch of the [catch] block of [addEvent].  When the
    insert is rejected with code 11000 and the re-read goes through, the
    outcome is decided by the re-read alone: the stored event when one
    has the key, and the internal error "Duplicate key error but event
    not found" when none has, which takes a storage engine that reports
    a duplicate where the index holds none.  When the re-read fails, its
    storage error leaves the [catch] block as it is. *)
Theorem addEvent_reread (d : Db) (sid : string) (dto : Dto.CreateEventDto)
    (s : Session) (msg : string) (fs : list (option Fault)) :
  List.find (SessionModel.hasId sid) (sessions d) = Some s ->
  Svc.addEvent sid dto (mkWorld d (None :: Some (11000%Z, msg) :: None :: fs))
  = (match List.find (EventModel.hasKey sid (Dto.eventId dto)) (events d) with
     | Some e0 => inr e0
     | None => inl (InternalServerErrorException
                      "Duplicate key error but event not found")
     end, mkWorld d fs)
  /\ (forall c msg',
      Svc.addEvent sid dto
        (mkWorld d (None :: Some (11000%Z, msg) :: Some (c, msg') :: fs))
      = (inl (MongoServerError c msg'), mkWorld d fs))
  /\ (forall e0 c msg',
      List.find (EventModel.hasKey sid (Dto.eventId dto)) (events d) = Some e0 ->
      Svc.addEvent sid dto (mkWorld d (None :: None :: Some (c, msg') :: fs))
      = (inl (MongoServerError c msg'), mkWorld d fs)).
Proof.
  intros Hs.
  unfold Svc.addEvent, bind, SessionModel.findOne, storageCall,
    SessionModel.findOne_op. cbn [faults db]. rewrite Hs.
  unfold tryCatch, Svc.addEvent_insert, bind, EventModel.create, storageCall.
  cbn [faults db].
  split; [| split].
  - unfold Svc.addEvent_catch, bind, EventModel.findOne, storageCall,
      EventModel.findOne_op. cbn.
    destruct (List.find _ (events d)); reflexivity.
  - intros c msg'. reflexivity.
  - intros e0 c msg' He. unfold EventModel.create_op.
    cbn [EventSchema.sessionId EventSchema.eventId].
    rewrite (find_some_existsb _ _ _ He). reflexivity.
Qed.

Lemma addEvent_reread_witness :
  Svc.addEvent "s2" Sample2.fresh
    (mkWorld Sample2.store [None; Some (11000%Z, "E11000"); None])
  = (inl (InternalServerErrorException
            "Duplicate key error but event not found"),
     quiet Sample2.store).
Proof.
  exact (proj1 (addEvent_reread Sample2.store "s2" Sample2.fresh Sample.s2
                  "E11000" [] eq_refl)).
Defined.

(** X9. [getSession] and [completeSession] have no [try]: a storage
    failure of any of their calls reaches the caller as the storage error
    it is, answered with status 500, and nothing is written.  For
    [getSession] this holds for the session lookup, for the page query
    and for the count. *)
Theorem uncaught_storage_failures (d : Db) (sid : string) (c : Z)
    (msg : string) (fs : list (option Fault)) :
  (forall now,
      Svc.completeSession sid now (mkWorld d (Some (c, msg) :: fs))
      = (inl (MongoServerError c msg), mkWorld d fs)
      /\ fst (ConversationsController.completeSession sid now
                (mkWorld d (Some (c, msg) :: fs)))
         = inr (500%Z, inl (MongoServerError c msg)))
  /\ (forall p,
      Svc.getSession sid p (mkWorld d (Some (c, msg) :: fs))
      = (inl (MongoServerError c msg), mkWorld d fs))
  /\ (forall p s,
      List.find (SessionModel.hasId sid) (sessions d) = Some s ->
      Svc.getSession sid p (mkWorld d (None :: Some (c, msg) :: fs))
      = (inl (MongoServerError c msg), mkWorld d fs)
      /\ Svc.getSession sid p (mkWorld d (None :: None :: Some (c, msg) :: fs))
         = (inl (MongoServerError c msg), mkWorld d fs)
      /\ fst (ConversationsController.getSession sid p
                (mkWorld d (None :: None :: Some (c, msg) :: fs)))
         = inr (500%Z, inl (MongoServerError c msg))).
Proof.
  split; [| split].
  - intros now. split; reflexivity.
  - intros p. reflexivity.
  - intros p s Hs.
    unfold ConversationsController.getSession, ConversationsController.respond.
    unfold Svc.getSession, bind, SessionModel.findOne, storageCall,
      SessionModel.findOne_op. cbn [faults db]. rewrite Hs.
    repeat split; reflexivity.
Qed.

Lemma uncaught_storage_failures_witness :
  Svc.getSession "s1" (Dto.mkPaginationDto None None)
    (mkWorld Sample.store [None; None; Some Sample2.timeout])
  = (inl (MongoServerError 89 "network timeout"), quiet Sample.store).
Proof.
  exact (proj1 (proj2 (proj2 (proj2 (uncaught_storage_failures Sample.store
                                       "s1" 89%Z "network timeout" []))
                         (Dto.mkPaginationDto None None) Sample.s1 eq_refl))).
Defined.

(** ** Pages *)

Section Pages.

Context {A : Type}.

Lemma firstn_then_firstn (a b : nat) (l : list A) :
  firstn a l ++ firstn b (skipn a l) = firstn (a + b) l.
Proof.
  revert l. induction a as [|a IH]; intros l; [reflexivity|].
  destruct l as [|x l]; cbn.
  - now rewrite firstn_nil.
  - now rewrite IH.
Qed.

Lemma in_firstn (n : nat) (l : list A) (x : A) :
  In x (firstn n l) -> In x l.
Proof.
  intros H. rewrite <- (firstn_skipn n l). apply in_or_app. now left.
Qed.

Lemma in_skipn (n : nat) (l : list A) (x : A) :
  In x (skipn n l) -> In x l.
Proof.
  intros H. rewrite <- (firstn_skipn n l). apply in_or_app. now right.
Qed.

End Pages.

(** X10. Pages tile the event list.  On a stored session whose events
    have distinct timestamps, for limits [a] and [b] of at least 1, the
    page of [limit = a] at [offset = o] followed by the page of
    [limit = b] at [offset = o + a] is the page of [limit = a + b] at
    [offset = o]: a reader who follows [offset + limit] sees every event
    once, in order, as long as nothing is appended in between. *)
Theorem pages_concatenate (d : Db) (sid : string) (s : Session)
    (o a b : nat) :
  List.find (SessionModel.hasId sid) (sessions d) = Some s ->
  NoDup (map EventSchema.timestamp (eventsOfSession sid d)) ->
  0 < a -> 0 < b ->
  exists p1 p2 p12,
    pageAt sid a o (quiet d) = (inr p1, quiet d)
    /\ pageAt sid b (o + a) (quiet d) = (inr p2, quiet d)
    /\ pageAt sid (a + b) o (quiet d) = (inr p12, quiet d)
    /\ Svc.events p1 ++ Svc.events p2 = Svc.events p12.
Proof.
  intros Hs _ Ha Hb. unfold pageAt. do 3 eexists.
  split; [exact (getSession_found d sid _ s Hs)|].
  split; [exact (getSession_found d sid _ s Hs)|].
  split; [exact (getSession_found d sid _ s Hs)|].
  cbn [Svc.events SessionModel.orElse Dto.limit Dto.offset].
  rewrite (Nat.add_comm o a), <- skipn_skipn.
  destruct a as [|a]; [lia|]. destruct b as [|b]; [lia|].
  cbn [EventModel.takeLimit Nat.add].
  apply (firstn_then_firstn (S a) (S b)).
Qed.

Lemma pages_concatenate_witness :
  exists p1 p2 p12,
    pageAt "s1" 1 0 (quiet Sample.store) = (inr p1, quiet Sample.store)
    /\ pageAt "s1" 1 (0 + 1) (quiet Sample.store) = (inr p2, quiet Sample.store)
    /\ pageAt "s1" (1 + 1) 0 (quiet Sample.store) = (inr p12, quiet Sample.store)
    /\ Svc.events p1 ++ Svc.events p2 = Svc.events p12.
Proof.
  apply (pages_concatenate Sample.store "s1" Sample.s1 0 1 1 eq_refl);
    [| lia | lia].
  repeat constructor; cbn; intros H;
    repeat (destruct H as [H|H]; [discriminate H|]); exact H.
Defined.

(** X11. What [hasMore] tells.  On a stored session, when a page
    reports [hasMore = false] the page at [offset + limit] is empty, and
    when it reports [hasMore = true] the page at [offset + limit] holds
    at least one event for every positive limit. *)
Theorem hasMore_next_page (d : Db) (sid : string) (s : Session)
    (limit offset limit' : nat) :
  List.find (SessionModel.hasId sid) (sessions d) = Some s ->
  exists page next,
    pageAt sid limit offset (quiet d) = (inr page, quiet d)
    /\ pageAt sid limit' (offset + limit) (quiet d) = (inr next, quiet d)
    /\ (Svc.hasMore (Svc.pagination page) = false -> Svc.events next = [])
    /\ (Svc.hasMore (Svc.pagination page) = true -> 0 < limit' ->
        Svc.events next <> []).
Proof.
  intros Hs. unfold pageAt. do 2 eexists.
  split; [exact (getSession_found d sid _ s Hs)|].
  split; [exact (getSession_found d sid _ s Hs)|].
  cbn [Svc.events Svc.pagination Svc.hasMore SessionModel.orElse
       Dto.limit Dto.offset].
  assert (Hlen := SortFacts.sortByTimestamp_length (eventsOfSession sid d)).
  split.
  - intros Hm. apply Nat.ltb_ge in Hm.
    rewrite skipn_all2 by lia.
    destruct limit'; [reflexivity | apply firstn_nil].
  - intros Hm Hpos. apply Nat.ltb_lt in Hm. intros Hnil.
    destruct limit' as [|l']; [lia|]. cbn [EventModel.takeLimit] in Hnil.
    apply (f_equal (@List.length _)) in Hnil.
    rewrite length_firstn, length_skipn in Hnil. cbn [List.length] in Hnil.
    lia.
Qed.

Lemma hasMore_next_page_witness :
  exists page next,
    pageAt "s1" 1 0 (quiet Sample.store) = (inr page, quiet Sample.store)
    /\ pageAt "s1" 5 (0 + 1) (quiet Sample.store) = (inr next, quiet Sample.store)
    /\ (Svc.hasMore (Svc.pagination page) = false -> Svc.events next = [])
    /\ (Svc.hasMore (Svc.pagination page) = true -> 0 < 5 ->
        Svc.events next <> []).
Proof.
  exact (hasMore_next_page Sample.store "s1" Sample.s1 1 0 5 eq_refl).
Defined.

(** X12. A page never shows another session's events.  Every event of
    a page returned for [sessionId] is a stored event whose [sessionId]
    is the one asked for, and the session of the page is the stored
    session with that id. *)
Theorem page_events_belong (d : Db) (sid : string) (p : Dto.PaginationDto)
    (page : Svc.SessionPage) :
  fst (Svc.getSession sid p (quiet d)) = inr page ->
  Forall (fun e => EventSchema.sessionId e = sid /\ In e (events d))
    (Svc.events page)
  /\ List.find (SessionModel.hasId sid) (sessions d) = Some (Svc.session page)
  /\ sessionId (Svc.session page) = sid.
Proof.
  intros Hrun.
  destruct (List.find (SessionModel.hasId sid) (sessions d)) as [s|] eqn:Hs.
  - rewrite (getSession_found d sid p s Hs) in Hrun. cbn [fst] in Hrun.
    injection Hrun as <-. cbn [Svc.events Svc.session].
    split; [| split; [reflexivity | now apply SessionFacts.find_hasId in Hs]].
    apply Forall_forall. intros e Hin.
    assert (Hin' : In e (skipn (SessionModel.orElse (Dto.offset p) 0)
                           (EventModel.sortByTimestamp (eventsOfSession sid d)))).
    { destruct (SessionModel.orElse (Dto.limit p) 50);
        [exact Hin | now apply in_firstn in Hin]. }
    clear Hin. rename Hin' into Hin. apply in_skipn in Hin.
    apply (Permutation_in _ (SortFacts.sortByTimestamp_perm _)) in Hin.
    unfold eventsOfSession in Hin. apply filter_In in Hin.
    destruct Hin as [Hin Hse]. split; [| exact Hin].
    unfold EventModel.inSession in Hse. now apply String.eqb_eq in Hse.
  - rewrite (getSession_absent d sid p Hs) in Hrun. discriminate.
Qed.

Lemma page_events_belong_witness :
  Forall (fun e => EventSchema.sessionId e = "s1" /\ In e (events Sample.store))
    [Sample.e2; Sample.e1].
Proof.
  exact (proj1 (page_events_belong Sample.store "s1"
                  (Dto.mkPaginationDto None None)
                  (Svc.mkSessionPage Sample.s1 [Sample.e2; Sample.e1]
                     (Svc.mkPagination 2 50 0 false None))
                  eq_refl)).
Defined.

(** ** Writes followed by reads *)

Lemma find_hasId_stored (id : string) (ss : list Session) (s : Session) :
  In s ss -> sessionId s = id ->
  exists s', List.find (SessionModel.hasId id) ss = Some s'.
Proof.
  intros Hin Hid. apply existsb_true_find. apply existsb_exists.
  exists s. split; [exact Hin | now apply SessionFacts.hasId_eq].
Qed.


Lemma hasKey_stored (sid : string) (dto : Dto.CreateEventDto) :
  EventModel.hasKey sid (Dto.eventId dto) (EventModel.stored (eventOf sid dto))
  = true.
Proof. unfold EventModel.hasKey. cbn. now rewrite !String.eqb_refl. Qed.



(** X14. A session is usable as soon as [createSession] has returned.
    For a non-empty [sessionId], whatever the store was, after
    [createSession] a [getSession] for the same id returns a page whose
    session is the record [createSession] returned, and an [addEvent]
    for the same id with a non-empty [eventId] returns an event: neither
    fails with NotFound. *)
Theorem createSession_then_use (d : Db) (dto : Dto.CreateSessionDto)
    (now : Date) :
  Dto.sessionId dto <> "" ->
  exists s w1,
    Svc.createSession dto now (quiet d) = (inr (Some s), w1)
    /\ sessionId s = Dto.sessionId dto
    /\ (forall p, exists page,
          Svc.getSession (Dto.sessionId dto) p w1 = (inr page, w1)
          /\ Svc.session page = s)
    /\ (forall edto, Dto.eventId edto <> "" ->
          exists e w2,
            Svc.addEvent (Dto.sessionId dto) edto w1 = (inr e, w2)
            /\ EventSchema.sessionId e = Dto.sessionId dto
            /\ EventSchema.eventId e = Dto.eventId edto).
Proof.
  intros _.
  assert (H : exists s d1,
             Svc.createSession dto now (quiet d) = (inr (Some s), quiet d1)
             /\ List.find (SessionModel.hasId (Dto.sessionId dto)) (sessions d1)
                = Some s).
  { destruct (List.find (SessionModel.hasId (Dto.sessionId dto)) (sessions d))
      as [s|] eqn:Hf.
    - exists s, d. split; [now apply createSession_existing | exact Hf].
    - do 2 eexists. split; [now apply createSession_absent|].
      cbn [sessions]. rewrite (find_app_none _ _ _ Hf). cbn.
      unfold SessionModel.hasId, freshSession. cbn.
      now rewrite String.eqb_refl. }
  destruct H as (s & d1 & Hrun & Hf1).
  exists s, (quiet d1). split; [exact Hrun|].
  split; [now apply SessionFacts.find_hasId in Hf1|]. split.
  - intros p. eexists.
    split; [exact (getSession_found d1 _ p s Hf1) | reflexivity].
  - intros edto _.
    destruct (List.find (EventModel.hasKey (Dto.sessionId dto)
                           (Dto.eventId edto)) (events d1)) as [e0|] eqn:Hk.
    + exists e0, (quiet d1).
      split; [exact (addEvent_replay d1 _ edto s e0 Hf1 Hk)|].
      apply find_some in Hk. destruct Hk as [_ Hk].
      now apply EventFacts.hasKey_eq in Hk.
    + do 2 eexists.
      split; [exact (addEvent_fresh d1 _ edto s Hf1 Hk)|].
      split; reflexivity.
Qed.

Lemma createSession_then_use_witness :
  exists s w1,
    Svc.createSession (Dto.mkCreateSessionDto "s3" "es") 8000
      (quiet Sample.store)
    = (inr (Some s), w1)
    /\ sessionId s = "s3"
    /\ exists e w2,
         Svc.addEvent "s3" Sample.retry w1 = (inr e, w2)
         /\ EventSchema.sessionId e = "s3".
Proof.
  destruct (createSession_then_use Sample.store
              (Dto.mkCreateSessionDto "s3" "es") 8000)
    as (s & w1 & Hrun & Hid & _ & Hadd); [discriminate|].
  destruct (Hadd Sample.retry) as (e & w2 & He & Hsid & _); [discriminate|].
  exists s, w1. split; [exact Hrun|]. split; [exact Hid|].
  exists e, w2. split; assumption.
Defined.



(** X16. [completeSession] repeated under one clock reading is
    idempotent: the second call returns what the first returned and
    leaves the store of the first, for a stored session as for an
    unknown one. *)
Theorem completeSession_same_clock (d : Db) (sid : string) (now : Date) :
  Svc.completeSession sid now (snd (Svc.completeSession sid now (quiet d)))
  = Svc.completeSession sid now (quiet d).
Proof.
  destruct (List.find (SessionModel.hasId sid) (sessions d)) as [s|] eqn:Hs.
  - rewrite (completeSession_found d sid now s Hs). cbn [snd].
    set (done := mkSession (sessionId s) COMPLETED (language s) (startedAt s)
                   (Some now)).
    assert (Hid : sessionId done = sid)
      by (apply SessionFacts.find_hasId in Hs; apply Hs).
    assert (Hf1 : List.find (SessionModel.hasId sid)
                    (SessionModel.replaceFirst sid done (sessions d))
                  = Some done)
      by exact (SessionFacts.find_replaceFirst sid s done (sessions d) Hs Hid).
    rewrite (completeSession_found
               (mkDb (SessionModel.replaceFirst sid done (sessions d))
                  (events d)) sid now done Hf1).
    cbn [sessions events sessionId language startedAt done].
    fold done. now rewrite (SessionFacts.replaceFirst_same _ _ _ Hf1).
  - rewrite (completeSession_absent d sid now Hs). cbn [snd].
    exact (completeSession_absent d sid now Hs).
Qed.

(** ** Event keys *)





(** X19. [total] never goes down.  For a stored session, the [total]
    that [getSession] reports after any sequence of requests, under any
    fault plan, is at least the [total] it reported before, whatever
    [limit] and [offset] the two reads use. *)
Theorem total_never_decreases (rs : list Request) (w : World) (sid : string)
    (s : Session) (p p' : Dto.PaginationDto) :
  List.find (SessionModel.hasId sid) (sessions (db w)) = Some s ->
  exists page page',
    fst (Svc.getSession sid p (quiet (db w))) = inr page
    /\ fst (Svc.getSession sid p' (quiet (db (handleAll rs w)))) = inr page'
    /\ Svc.total (Svc.pagination page) <= Svc.total (Svc.pagination page').
Proof.
  intros Hs.
  assert (Hs2 : exists s2, List.find (SessionModel.hasId sid)
                             (sessions (db (handleAll rs w))) = Some s2).
  { destruct (evolves_handleAll rs w) as [_ Hl].
    pose proof (SessionFacts.find_hasId _ _ _ Hs) as [Hin Hid].
    destruct (Hl s Hin) as (s' & Hin' & Hid' & _).
    apply find_hasId_stored with (s := s'); congruence. }
  destruct Hs2 as [s2 Hs2].
  do 2 eexists.
  rewrite (getSession_found (db w) sid p s Hs).
  rewrite (getSession_found (db (handleAll rs w)) sid p' s2 Hs2).
  split; [reflexivity|]. split; [reflexivity|].
  cbn [Svc.pagination Svc.total]. unfold eventsOfSession.
  destruct (eventsGrow_handleAll rs w) as [added ->].
  rewrite filter_app, length_app. lia.
Qed.

Lemma total_never_decreases_witness :
  exists page page',
    fst (Svc.getSession "s1" (Dto.mkPaginationDto None None)
           (quiet Sample.store)) = inr page
    /\ fst (Svc.getSession "s1" (Dto.mkPaginationDto (Some 1) (Some 1))
              (quiet (db (handleAll Sample.requests
                            (mkWorld Sample.store Sample.plan))))) = inr page'
    /\ Svc.total (Svc.pagination page) <= Svc.total (Svc.pagination page').
Proof.
  exact (total_never_decreases Sample.requests
           (mkWorld Sample.store Sample.plan) "s1" Sample.s1
           (Dto.mkPaginationDto None None)
           (Dto.mkPaginationDto (Some 1) (Some 1)) eq_refl).
Defined.

(** ** Status codes *)

(** X20. The status a caller gets when the storage does not fail and
    the request is one its validation lets through (non-empty ids and
    language, a [limit] of at most 100).  [createSession] answers 201
    with a session.  The other three routes answer 404 exactly when no
    session has the [sessionId] of the path; otherwise [addEvent]
    answers 201, and [getSession] and [completeSession] answer 200.  No
    route answers 500. *)
Theorem status_codes (d : Db) (sid : string) :
  sid <> "" ->
  let stored := existsb (SessionModel.hasId sid) (sessions d) in
  (forall dto now,
      Dto.sessionId dto <> "" -> Dto.language dto <> "" ->
      exists s,
        fst (ConversationsController.createSession dto now (quiet d))
        = inr (201%Z, inr (Some s)))
  /\ (forall dto,
      Dto.eventId dto <> "" ->
      exists r,
        fst (ConversationsController.addEvent sid dto (quiet d))
        = inr ((if stored then 201 else 404)%Z, r))
  /\ (forall p,
      (forall n, Dto.limit p = Some n -> n <= 100) ->
      exists r,
        fst (ConversationsController.getSession sid p (quiet d))
        = inr ((if stored then 200 else 404)%Z, r))
  /\ (forall now, exists r,
      fst (ConversationsController.completeSession sid now (quiet d))
      = inr ((if stored then 200 else 404)%Z, r)).
Proof.
  intros _ stored. subst stored.
  unfold ConversationsController.createSession, ConversationsController.addEvent,
    ConversationsController.getSession, ConversationsController.completeSession,
    ConversationsController.respond.
  split.
  { intros dto now _ _.
    destruct (List.find (SessionModel.hasId (Dto.sessionId dto)) (sessions d))
      as [s|] eqn:Hf.
    - exists s. now rewrite (createSession_existing _ _ _ _ Hf).
    - eexists. now rewrite (createSession_absent _ _ _ Hf). }
  destruct (List.find (SessionModel.hasId sid) (sessions d)) as [s|] eqn:Hs.
  - rewrite (find_some_existsb _ _ _ Hs). split; [| split].
    + intros dto _.
      destruct (List.find (EventModel.hasKey sid (Dto.eventId dto)) (events d))
        as [e0|] eqn:Hk.
      * eexists. now rewrite (addEvent_replay d sid dto s e0 Hs Hk).
      * eexists. now rewrite (addEvent_fresh d sid dto s Hs Hk).
    + intros p _. eexists. now rewrite (getSession_found d sid p s Hs).
    + intros now. eexists. now rewrite (completeSession_found d sid now s Hs).
  - rewrite (find_none_existsb _ _ Hs). split; [| split].
    + intros dto _. eexists. now rewrite (addEvent_absent d sid dto Hs).
    + intros p _. eexists. now rewrite (getSession_absent d sid p Hs).
    + intros now. eexists. now rewrite (completeSession_absent d sid now Hs).
Qed.

Lemma status_codes_witness :
  exists r,
    fst (ConversationsController.addEvent "s1" Sample.retry (quiet Sample.store))
    = inr (201%Z, r).
Proof.
  destruct (status_codes Sample.store "s1") as (_ & Hadd & _); [discriminate|].
  destruct (Hadd Sample.retry) as [r Hr]; [discriminate|].
  exists r. exact Hr.
Defined.
